(** * FHA air-quality dashboard: snapshot cache and aggregation engine

    A shallow embedding of [app/app.py].  The script is a Streamlit page;
    what is embedded here is its data path:

    - [load_data] (lines 38-78): the Dropbox revision check, the conditional
      re-download and the DuckDB read, over an explicit world made of the
      local file system, the answers of the remote store and call counters;
    - the "Summary Metrics" block (lines 152-174);
    - [categorize_aqi] and the [cat_counts] frame (lines 189-211);
    - the monthly [daily_avg] frame (lines 266-281).

    Data frames are lists of labelled rows, so that [idxmin]/[loc] go
    through the index labels as pandas does.  AQI readings are exact
    rationals, and so are their means and one-decimal roundings; the two
    day percentages are computed in binary64 as Python computes them.
    [load_data] is the body the decorator [st.cache_data] runs on a miss;
    the memo around it is [cache_data]. *)

From Stdlib Require Import ZArith QArith Qround Lia Lqa List Bool Ascii String.
From Stdlib Require Import Permutation Sorting.Sorted.
From Stdlib Require Import Floats.PrimFloat Floats.FloatOps Floats.SpecFloat.
From Stdlib Require Import Numbers.Cyclic.Int63.Uint63.
From stdpp Require Import base option gmap strings sorting.

Local Open Scope string_scope.

(* ===================================================================== *)
(** * Data model *)
(* ===================================================================== *)

(** A calendar date, as [datetime.date]: compared field by field. *)
Record Date := mkDate { year : Z; month : Z; day : Z }.

(** [Hour_Timestamp]: a date and the hour within it. *)
Record Timestamp := mkTs { ts_date : Date; ts_hour : Z }.

(** One row of the table [air_quality_hourly]. *)
Record Row := mkRow {
  Sensor_ID : string;
  Zip_Code : string;
  Hour_Timestamp : Timestamp;
  Avg_AQI : Q;
  Avg_PM2_5 : Q;
  Latitude : Q;
  Longitude : Q
}.

(** A pandas data frame: rows in positional order, each under its index
    label. *)
Definition DataFrame := list (nat * Row).

Definition labels (df : DataFrame) : list nat := List.map fst df.

(** [fetchdf()] labels the rows of a query result with a fresh
    [RangeIndex]: 0, 1, 2, ... *)
Fixpoint range_index (start : nat) (rows : list Row) : DataFrame :=
  match rows with
  | [] => []
  | r :: rest => (start, r) :: range_index (S start) rest
  end.

Definition fetchdf (rows : list Row) : DataFrame := range_index 0 rows.

(* ===================================================================== *)
(** * Text helpers used by the revision marker *)
(* ===================================================================== *)

(** [str.isspace] on the code points below 256. *)
Definition isspace (c : ascii) : bool :=
  let n := nat_of_ascii c in
  ((9 <=? n) && (n <=? 13) || (28 <=? n) && (n <=? 32)
   || (n =? 133) || (n =? 160))%nat.

Fixpoint lstrip (s : string) : string :=
  match s with
  | EmptyString => EmptyString
  | String c rest => if isspace c then lstrip rest else s
  end.

Fixpoint rstrip (s : string) : string :=
  match s with
  | EmptyString => EmptyString
  | String c rest =>
      match rstrip rest with
      | EmptyString => if isspace c then EmptyString else String c EmptyString
      | kept => String c kept
      end
  end.

(** [str.strip()] with no argument. *)
Definition strip (s : string) : string := rstrip (lstrip s).

(** Reading a file opened with mode ["r"] translates every line ending
    (CR LF and lone CR) to LF. *)
Fixpoint universal_newlines (s : string) : string :=
  match s with
  | EmptyString => EmptyString
  | String c rest =>
      if Ascii.eqb c "013"%char then
        match rest with
        | String c' rest' =>
            if Ascii.eqb c' "010"%char
            then String "010"%char (universal_newlines rest')
            else String "010"%char (universal_newlines rest)
        | EmptyString => String "010"%char EmptyString
        end
      else String c (universal_newlines rest)
  end.

(* ===================================================================== *)
(** * The world [load_data] runs in *)
(* ===================================================================== *)

(** Failures by origin, under the names of the error taxonomy: the metadata
    lookup, the download, the DuckDB read. *)
Inductive exn := RemoteMetadataError | DownloadError | DatabaseError.

Inductive result (A : Type) :=
| Ok (a : A)
| Raise (e : exn).
Arguments Ok {A} a.
Arguments Raise {A} e.

(** The local file system maps a path to the contents of the file there.
    [metadata] is the revision [files_get_metadata] answers with ([None]:
    the call raises); [download] is the body [files_download] delivers
    through [res.content] ([None]: the call raises).  The two counters
    record the calls made to the remote store. *)
Record World := mkWorld {
  fs : gmap string string;
  metadata : option string;
  download : option string;
  metadata_calls : nat;
  download_calls : nat
}.

Definition set_fs (f : gmap string string -> gmap string string) (w : World) : World :=
  mkWorld (f (fs w)) (metadata w) (download w) (metadata_calls w) (download_calls w).

(** Computations that read and write the world and may raise. *)
Definition M (A : Type) : Type := World -> result A * World.

#[global] Instance M_ret : MRet M := fun A a w => (Ok a, w).
#[global] Instance M_bind : MBind M := fun A B k m w =>
  match m w with
  | (Ok a, w') => k a w'
  | (Raise e, w') => (Raise e, w')
  end.

(** ** Remote store *)

(** [dbx.files_get_metadata(DROPBOX_UPLOAD_PATH).rev] *)
Definition files_get_metadata : M string := fun w =>
  let w' := mkWorld (fs w) (metadata w) (download w)
                    (S (metadata_calls w)) (download_calls w) in
  match metadata w with
  | Some rev => (Ok rev, w')
  | None => (Raise RemoteMetadataError, w')
  end.

(** [dbx.files_download(DROPBOX_UPLOAD_PATH)] followed by [res.content] *)
Definition files_download : M string := fun w =>
  let w' := mkWorld (fs w) (metadata w) (download w)
                    (metadata_calls w) (S (download_calls w)) in
  match download w with
  | Some content => (Ok content, w')
  | None => (Raise DownloadError, w')
  end.

(** ** Local files *)

(** [os.path.exists(path)] *)
Definition path_exists (path : string) : M bool := fun w =>
  (Ok (bool_decide (is_Some (fs w !! path))), w).

(** [open(path, "r")] then [f.read()]; called only on existing paths. *)
Definition read_text (path : string) : M string := fun w =>
  (Ok (universal_newlines (default "" (fs w !! path))), w).

(** [open(path, "wb")] and [open(path, "w")]: the file is created or cut to
    length zero as soon as it is opened. *)
Definition open_truncate (path : string) : M unit := fun w =>
  (Ok tt, set_fs (insert path EmptyString) w).

(** [f.write(data)] on a file just opened for writing. *)
Definition write (path : string) (data : string) : M unit := fun w =>
  (Ok tt, set_fs (insert path data) w).

Definition local_path : string := "/tmp/dummy_air_quality.duckdb".
Definition rev_path : string := "/tmp/dummy_air_quality.rev".

Section LoadData.

(** What DuckDB finds in a file: the rows of [air_quality_hourly], or
    nothing when the bytes are not a database holding that table. *)
Variable air_quality_hourly : string -> option (list Row).

(** [duckdb.connect(path, read_only=True)], the [SELECT *], [fetchdf()]. *)
Definition read_table (path : string) : M DataFrame := fun w =>
  match fs w !! path ≫= air_quality_hourly with
  | Some rows => (Ok (fetchdf rows), w)
  | None => (Raise DatabaseError, w)
  end.

(** Lines 62-78: download a fresh copy, store the new revision, read. *)
Definition download_fresh (remote_rev : string) : M DataFrame :=
  open_truncate local_path ;;
  content ← files_download ;
  write local_path content ;;
  open_truncate rev_path ;;
  write rev_path remote_rev ;;
  read_table local_path.

(** Lines 39-78, the body of [load_data]. *)
Definition load_data : M DataFrame :=
  remote_rev ← files_get_metadata ;
  has_local ← path_exists local_path ;
  has_rev ← path_exists rev_path ;
  if has_local && has_rev then
    text ← read_text rev_path ;
    let local_rev := strip text in
    if String.eqb local_rev remote_rev
    then read_table local_path
    else download_fresh remote_rev
  else download_fresh remote_rev.

(** [@st.cache_data]: the first call runs the body and keeps its value;
    later calls of the session answer from the memo and touch nothing.
    A call that raises leaves the memo empty. *)
Definition cache_data (body : M DataFrame)
    (memo : option DataFrame) (w : World)
  : result DataFrame * option DataFrame * World :=
  match memo with
  | Some df => (Ok df, memo, w)
  | None =>
      match body w with
      | (Ok df, w') => (Ok df, Some df, w')
      | (Raise e, w') => (Raise e, None, w')
      end
  end.

Definition load_data_cached := cache_data load_data.

End LoadData.

(** The revision the code reads back from the marker file, if there is
    one: its text with line endings translated and outer blanks removed. *)
Definition local_rev (w : World) : option string :=
  (fun text => strip (universal_newlines text)) <$> fs w !! rev_path.

(** The test of lines 52-55: both files exist and the marker's revision is
    the remote one. *)
Definition up_to_date (w : World) (remote_rev : string) : bool :=
  bool_decide (is_Some (fs w !! local_path))
  && bool_decide (local_rev w = Some remote_rev).

(* ===================================================================== *)
(** * Orders on dates and timestamps; the global filter *)
(* ===================================================================== *)

Definition date_compare (a b : Date) : comparison :=
  match (year a ?= year b)%Z with
  | Eq => match (month a ?= month b)%Z with
          | Eq => (day a ?= day b)%Z
          | c => c
          end
  | c => c
  end.

Definition date_leb (a b : Date) : bool :=
  match date_compare a b with Gt => false | _ => true end.

Definition date_eqb (a b : Date) : bool :=
  match date_compare a b with Eq => true | _ => false end.

Definition ts_compare (a b : Timestamp) : comparison :=
  match date_compare (ts_date a) (ts_date b) with
  | Eq => (ts_hour a ?= ts_hour b)%Z
  | c => c
  end.

Definition ts_leb (a b : Timestamp) : bool :=
  match ts_compare a b with Gt => false | _ => true end.

Definition ts_ltb (a b : Timestamp) : bool :=
  match ts_compare a b with Lt => true | _ => false end.

(** [df["Hour_Timestamp"].dt.date] of one row. *)
Definition row_date (x : nat * Row) : Date := ts_date (Hour_Timestamp (snd x)).
Definition row_ts (x : nat * Row) : Timestamp := Hour_Timestamp (snd x).
Definition row_aqi (x : nat * Row) : Q := Avg_AQI (snd x).
Definition row_zip (x : nat * Row) : string := Zip_Code (snd x).

(** [Series.isin] *)
Definition isin (z : string) (zs : list string) : bool :=
  existsb (String.eqb z) zs.

(** Line 133: boolean-mask selection keeps positions and labels. *)
Definition filtered_df (df : DataFrame) (selected_zips : list string)
    (start_dt end_dt : Timestamp) : DataFrame :=
  List.filter
    (fun x => isin (row_zip x) selected_zips
              && ts_leb start_dt (row_ts x) && ts_leb (row_ts x) end_dt)
    df.

(** [df.empty] *)
Definition empty (df : DataFrame) : bool :=
  match df with [] => true | _ => false end.

(* ===================================================================== *)
(** * Column arithmetic *)
(* ===================================================================== *)

Definition Qlt_bool (a b : Q) : bool := negb (Qle_bool b a).

Definition Qsum (xs : list Q) : Q := fold_right Qplus 0%Q xs.

(** [Series.mean()], in exact arithmetic.  Every column it is applied to
    below is non-empty. *)
Definition mean (xs : list Q) : Q :=
  Qred (Qsum xs / inject_Z (Z.of_nat (length xs))).

(** Round to the nearest integer, halves to the even neighbour. *)
Definition rint (q : Q) : Z :=
  let f := Qfloor q in
  match (q - inject_Z f ?= 1 # 2)%Q with
  | Lt => f
  | Gt => (f + 1)%Z
  | Eq => if Z.even f then f else (f + 1)%Z
  end.

(** [round(x, 1)] on a value of a frame: scale by ten, [rint], scale
    back. *)
Definition round1 (q : Q) : Q := Qred (inject_Z (rint (q * 10)) / 10).

(** ** Binary64 arithmetic of the two day percentages *)

(** [float(n)] for a count (exact below 2^53). *)
Definition float_of_nat (n : nat) : float :=
  PrimFloat.of_uint63 (Uint63.of_Z (Z.of_nat n)).

(** The exact value of a finite binary64 number. *)
Definition float_value (x : float) : option Q :=
  match Prim2SF x with
  | S754_zero _ => Some 0%Q
  | S754_finite s m e =>
      let v := match e with
               | Z.neg p => (Z.pos m # 1) / inject_Z (2 ^ Z.pos p)
               | _ => inject_Z (Z.pos m * 2 ^ e)
               end%Q in
      Some (Qred (if s then - v else v))
  | _ => None
  end.

(** Python's [round(x, 1)] on a float: the exact value of [x] is rounded
    to a whole number of tenths, halves to even, and the nearest binary64
    number to that decimal is returned.  Infinite and NaN arguments and
    the integral values from 2^52 on come back unchanged.  The division by
    ten is the correctly rounded one, which is that nearest number as long
    as the tenths are below 2^53; percentages are far below. *)
Definition py_round1 (x : float) : float :=
  match Prim2SF x with
  | S754_finite s m (Z.neg p) =>
      let tenths := rint ((Z.pos m # 1) * 10 / inject_Z (2 ^ Z.pos p)) in
      let r := PrimFloat.div (PrimFloat.of_uint63 (Uint63.of_Z tenths)) 10%float in
      if s then PrimFloat.opp r else r
  | _ => x
  end.

(** [round((k / total) * 100, 1) if total > 0 else 0] *)
Definition pct (k total : nat) : float :=
  if (0 <? total)%nat
  then py_round1 (PrimFloat.mul (PrimFloat.div (float_of_nat k) (float_of_nat total))
                                100%float)
  else 0%float.

(* ===================================================================== *)
(** * Grouped reductions *)
(* ===================================================================== *)

(** [groupby(key).tail(1)]: of every group the last row, the kept rows in
    the order of the frame. *)
Fixpoint groupby_tail1 (key : nat * Row -> string) (df : DataFrame) : DataFrame :=
  match df with
  | [] => []
  | x :: rest =>
      if existsb (fun y => String.eqb (key y) (key x)) rest
      then groupby_tail1 key rest
      else x :: groupby_tail1 key rest
  end.

(** [Series.idxmin()] / [idxmax()]: the label of the first occurrence of
    the extreme value; nothing on an empty column. *)
Fixpoint first_min (best : nat * Row) (rest : DataFrame) : nat * Row :=
  match rest with
  | [] => best
  | x :: rest' =>
      if Qlt_bool (row_aqi x) (row_aqi best)
      then first_min x rest' else first_min best rest'
  end.

Fixpoint first_max (best : nat * Row) (rest : DataFrame) : nat * Row :=
  match rest with
  | [] => best
  | x :: rest' =>
      if Qlt_bool (row_aqi best) (row_aqi x)
      then first_max x rest' else first_max best rest'
  end.

Definition idxmin (df : DataFrame) : option nat :=
  match df with [] => None | x :: rest => Some (fst (first_min x rest)) end.

Definition idxmax (df : DataFrame) : option nat :=
  match df with [] => None | x :: rest => Some (fst (first_max x rest)) end.

(** [df.loc[label]] is a row when exactly one row carries the label. *)
Definition loc (df : DataFrame) (label : nat) : option Row :=
  match List.filter (fun x => Nat.eqb (fst x) label) df with
  | [x] => Some (snd x)
  | _ => None
  end.

(** [groupby("Date")["Avg_AQI"]]: the groups in ascending date order, the
    values of a group in the order of the frame. *)
Fixpoint group_insert (d : Date) (v : Q) (groups : list (Date * list Q))
  : list (Date * list Q) :=
  match groups with
  | [] => [(d, [v])]
  | (d', vs) :: rest =>
      match date_compare d d' with
      | Lt => (d, [v]) :: groups
      | Eq => (d', v :: vs) :: rest
      | Gt => (d', vs) :: group_insert d v rest
      end
  end.

Fixpoint groupby_date (df : DataFrame) : list (Date * list Q) :=
  match df with
  | [] => []
  | x :: rest => group_insert (row_date x) (row_aqi x) (groupby_date rest)
  end.

(** [df.groupby("Date")["Avg_AQI"].mean().reset_index()] *)
Definition groupby_date_mean (df : DataFrame) : list (Date * Q) :=
  List.map (fun g => (fst g, mean (snd g))) (groupby_date df).

(* ===================================================================== *)
(** * Summary metrics (lines 148-181) *)
(* ===================================================================== *)

Record Summary := mkSummary {
  avg_aqi : Q;
  best_zip : string * Q;
  worst_zip : string * Q;
  good_days : nat;
  unhealthy_days : nat;
  total_days : nat;
  pct_good_days : float;
  pct_unhealthy_days : float;
  total_observations : nat
}.

(** What a tab shows: a warning, the computed value, or the traceback of an
    uncaught [KeyError]/[ValueError]. *)
Inductive view (A : Type) :=
| Warning (msg : string)
| Shown (a : A)
| Traceback.
Arguments Warning {A} msg.
Arguments Shown {A} a.
Arguments Traceback {A}.

(** [daily_aqi]: one mean per calendar date. *)
Definition daily_aqi (df : DataFrame) : list (Date * Q) := groupby_date_mean df.

Definition count_days (p : Q -> bool) (daily : list (Date * Q)) : nat :=
  length (List.filter (fun g => p (snd g)) daily).

Section SummaryMetrics.

(** [DataFrame.sort_values("Hour_Timestamp")].  pandas sorts with an
    unstable quicksort by default, so the order among equal timestamps is
    left open: the sort is a parameter. *)
Variable sort_values : DataFrame -> DataFrame.

(** Line 152 *)
Definition latest (df : DataFrame) : DataFrame :=
  groupby_tail1 row_zip (sort_values df).

(** Lines 155-156: [latest.loc[latest["Avg_AQI"].idxmin()]] *)
Definition best_row (df : DataFrame) : option Row :=
  idxmin (latest df) ≫= loc (latest df).

Definition worst_row (df : DataFrame) : option Row :=
  idxmax (latest df) ≫= loc (latest df).

(** The text of a ZIP metric: the code and the AQI rounded to a tenth. *)
Definition zip_metric (r : Row) : string * Q := (Zip_Code r, round1 (Avg_AQI r)).

Definition summary_metrics (df : DataFrame) : view Summary :=
  if empty df then Warning "No data available for selected filters."
  else
    match best_row df, worst_row df with
    | Some b, Some w =>
        let daily := daily_aqi df in
        let total := length daily in
        let good := count_days (fun a => Qle_bool a 50) daily in
        let unhealthy := count_days (fun a => Qle_bool 101 a) daily in
        Shown {|
          avg_aqi := round1 (mean (List.map row_aqi df));
          best_zip := zip_metric b;
          worst_zip := zip_metric w;
          good_days := good;
          unhealthy_days := unhealthy;
          total_days := total;
          pct_good_days := pct good total;
          pct_unhealthy_days := pct unhealthy total;
          total_observations := length df
        |}
    | _, _ => Traceback
    end.

End SummaryMetrics.

(** A stable insertion sort on the timestamp, one admissible
    [sort_values]. *)
Fixpoint insert_by_ts (x : nat * Row) (l : DataFrame) : DataFrame :=
  match l with
  | [] => [x]
  | y :: rest =>
      if ts_ltb (row_ts x) (row_ts y) then x :: l
      else y :: insert_by_ts x rest
  end.

Definition sort_by_ts (df : DataFrame) : DataFrame :=
  fold_right insert_by_ts [] df.

(* ===================================================================== *)
(** * AQI categories (lines 186-211) *)
(* ===================================================================== *)

(** What [categorize_aqi] can be handed: a finite number (an [int] or a
    finite [float]), an infinity or a NaN. *)
Inductive number := Finite (q : Q) | PosInf | NegInf | NaN.

(** [x <= bound] for a finite [bound]; every comparison with NaN is
    false. *)
Definition num_le (x : number) (bound : Q) : bool :=
  match x with
  | Finite q => Qle_bool q bound
  | NegInf => true
  | PosInf | NaN => false
  end.

Inductive Category :=
| Good | Moderate | UnhealthySensitive | Unhealthy | VeryUnhealthy | Hazardous.

Definition category_name (c : Category) : string :=
  match c with
  | Good => "Good"
  | Moderate => "Moderate"
  | UnhealthySensitive => "Unhealthy (Sensitive)"
  | Unhealthy => "Unhealthy"
  | VeryUnhealthy => "Very Unhealthy"
  | Hazardous => "Hazardous"
  end.

Definition Category_eqb (a b : Category) : bool :=
  String.eqb (category_name a) (category_name b).

Definition categorize_aqi (aqi : number) : Category :=
  if num_le aqi 50 then Good
  else if num_le aqi 100 then Moderate
  else if num_le aqi 150 then UnhealthySensitive
  else if num_le aqi 200 then Unhealthy
  else if num_le aqi 300 then VeryUnhealthy
  else Hazardous.

Definition category_order : list Category :=
  [Good; Moderate; UnhealthySensitive; Unhealthy; VeryUnhealthy; Hazardous].

(** The code [pd.Categorical] gives a value: its position in
    [categories]. *)
Fixpoint position (c : Category) (cs : list Category) : nat :=
  match cs with
  | [] => 0
  | c' :: rest => if Category_eqb c c' then 0 else S (position c rest)
  end.

Definition category_code (c : Category) : nat := position c category_order.

(** [Series.value_counts()]: one entry per value that occurs, the larger
    counts first. *)
Fixpoint tally_insert (c : Category) (acc : list (Category * nat))
  : list (Category * nat) :=
  match acc with
  | [] => [(c, 1%nat)]
  | (c', n) :: rest =>
      if Category_eqb c c' then (c', S n) :: rest
      else (c', n) :: tally_insert c rest
  end.

Definition tally (cs : list Category) : list (Category * nat) :=
  fold_left (fun acc c => tally_insert c acc) cs [].

Fixpoint insert_by_count (x : Category * nat) (l : list (Category * nat))
  : list (Category * nat) :=
  match l with
  | [] => [x]
  | y :: rest =>
      if (snd y <? snd x)%nat then x :: l else y :: insert_by_count x rest
  end.

Definition value_counts (cs : list Category) : list (Category * nat) :=
  fold_right insert_by_count [] (tally cs).

(** [sort_values("Category")] on the ordered categorical. *)
Fixpoint insert_by_category (x : Category * nat) (l : list (Category * nat))
  : list (Category * nat) :=
  match l with
  | [] => [x]
  | y :: rest =>
      if (category_code (fst x) <? category_code (fst y))%nat then x :: l
      else y :: insert_by_category x rest
  end.

Definition sort_by_category (l : list (Category * nat)) : list (Category * nat) :=
  fold_right insert_by_category [] l.

(** Line 197: the column [AQI_Category]. *)
Definition AQI_Category (df : DataFrame) : list Category :=
  List.map (fun x => categorize_aqi (Finite (row_aqi x))) df.

(** Lines 198-211: the frame handed to the pie chart. *)
Definition cat_counts (df : DataFrame) : list (Category * nat) :=
  sort_by_category (value_counts (AQI_Category df)).

Definition category_distribution (df : DataFrame) : view (list (Category * nat)) :=
  if empty df then Warning "No data available for selected filters."
  else Shown (cat_counts df).

(** How many rows fall into a category. *)
Definition rows_in_category (c : Category) (df : DataFrame) : nat :=
  length (List.filter (fun c' => Category_eqb c c') (AQI_Category df)).

(* ===================================================================== *)
(** * Monthly trend (lines 246-281) *)
(* ===================================================================== *)

(** The month names offered by the month select box. *)
Inductive Month :=
| January | February | March | April | May | June
| July | August | September | October | November | December.

(** [datetime.strptime(selected_month, "%B").month] *)
Definition month_num (m : Month) : Z :=
  match m with
  | January => 1 | February => 2 | March => 3 | April => 4
  | May => 5 | June => 6 | July => 7 | August => 8
  | September => 9 | October => 10 | November => 11 | December => 12
  end%Z.

Definition is_leap (y : Z) : bool :=
  ((y mod 4 =? 0) && (negb (y mod 100 =? 0) || (y mod 400 =? 0)))%Z.

Definition days_in_month (y : Z) (m : Month) : Z :=
  match m with
  | February => if is_leap y then 29 else 28
  | April | June | September | November => 30
  | _ => 31
  end%Z.

(** [datetime(selected_year, month_num, 1)] *)
Definition start_month_dt (y : Z) (m : Month) : Date := mkDate y (month_num m) 1.

(** [start_month_dt + pd.offsets.MonthEnd(0)]: the last day of that month. *)
Definition end_month_dt (y : Z) (m : Month) : Date :=
  mkDate y (month_num m) (days_in_month y m).

(** The test of lines 272-273: the date lies between the first and the
    last day of the month, both included. *)
Definition in_month (y : Z) (m : Month) (d : Date) : bool :=
  date_leb (start_month_dt y m) d && date_leb d (end_month_dt y m).

(** Lines 271-274 *)
Definition month_df (df : DataFrame) (y : Z) (m : Month) : DataFrame :=
  List.filter (fun x => in_month y m (row_date x)) df.

(** Lines 276-281 *)
Definition daily_avg (df : DataFrame) (y : Z) (m : Month) : view (list (Date * Q)) :=
  if empty (month_df df y m) then Warning "No data available for this month."
  else Shown (groupby_date_mean (month_df df y m)).


(* ===================================================================== *)
(** * Sample data *)
(* ===================================================================== *)

Definition reading (sensor zip : string) (d : Date) (h : Z) (aqi : Q) : Row :=
  mkRow sensor zip (mkTs d h) aqi 12 (36 # 1) (-119 # 1).

Definition old_rows : list Row :=
  [reading "s1" "93650" (mkDate 2024 1 15) 8 40].

Definition new_rows : list Row :=
  [reading "s1" "93650" (mkDate 2024 1 15) 8 40;
   reading "s2" "93701" (mkDate 2024 1 16) 9 60].

(** A toy database format: two byte strings are databases, nothing else
    is. *)
Definition sample_db (bytes : string) : option (list Row) :=
  if String.eqb bytes "DUCK-OLD" then Some old_rows
  else if String.eqb bytes "DUCK-NEW" then Some new_rows
  else None.

Definition cached_files : gmap string string :=
  <[local_path := "DUCK-OLD"]> (<[rev_path := "0123456789abcdef"]> ∅).

(** The cache is current. *)
Definition world_current : World :=
  mkWorld cached_files (Some "0123456789abcdef") (Some "DUCK-OLD") 0 0.

(** A newer revision exists and the download delivers it. *)
Definition world_stale : World :=
  mkWorld cached_files (Some "fedcba9876543210") (Some "DUCK-NEW") 0 0.

(** A newer revision exists and the download breaks. *)
Definition world_broken_download : World :=
  mkWorld cached_files (Some "fedcba9876543210") None 0 0.

(** The metadata lookup fails while a good cache is on disk. *)
Definition world_offline : World :=
  mkWorld cached_files None (Some "DUCK-OLD") 0 0.

(** Two ZIP codes, one reading each, the second one later. *)
Definition two_zips : DataFrame :=
  fetchdf [reading "s1" "A" (mkDate 2024 1 15) 8 30;
           reading "s2" "B" (mkDate 2024 1 15) 9 90].

(** Readings on 15 and 16 January 2024. *)
Definition january_rows : DataFrame :=
  fetchdf [reading "s1" "A" (mkDate 2024 1 15) 8 40;
           reading "s1" "A" (mkDate 2024 1 16) 8 60].

(** One reading a day with the given AQI, on the listed days of a month of
    2024. *)
Definition one_a_day (m : Z) (days : list nat) (aqi : Q) : list Row :=
  List.map (fun d => reading "s1" "A" (mkDate 2024 m (Z.of_nat d)) 12 aqi) days.

(** Eighty days: the 31 days of January are good, the 29 days of February
    and the first 20 of March are unhealthy. *)
Definition eighty_days : DataFrame :=
  fetchdf (one_a_day 1 (seq 1 31) 40
           ++ one_a_day 2 (seq 1 29) 120
           ++ one_a_day 3 (seq 1 20) 120).

(** A single good reading. *)
Definition one_good_row : DataFrame :=
  fetchdf [reading "s1" "A" (mkDate 2024 1 15) 8 30].

(* ===================================================================== *)
(** * Select boxes, global filter bounds, map and trend summary *)
(* ===================================================================== *)

(** [Series.unique()] and [drop_duplicates()]: the distinct values in the
    order of their first appearance. *)
Fixpoint unique {A} `{EqDecision A} (l : list A) : list A :=
  match l with
  | [] => []
  | x :: rest => x :: filter (fun y => y <> x) (unique rest)
  end.

(** Line 85: [sorted(df["Zip_Code"].unique())].  [sorted] is a stable
    merging sort, as [merge_sort] is. *)
Definition zip_codes (df : DataFrame) : list string :=
  merge_sort String.le (unique (List.map row_zip df)).

(** [dt.to_period("M")]: the year and the month of a timestamp. *)
Definition to_period (x : nat * Row) : Z * Z :=
  (year (row_date x), month (row_date x)).

(** Periods are ordered by year, then by month. *)
Definition period_le (a b : Z * Z) : Prop :=
  (fst a < fst b \/ (fst a = fst b /\ snd a <= snd b))%Z.

#[global] Instance period_le_dec : RelDecision period_le.
Proof. intros a b. unfold period_le. apply _. Defined.

(** Lines 110-111 and 253-254 *)
Definition year_month_pairs (df : DataFrame) : list (Z * Z) :=
  merge_sort period_le (unique (List.map to_period df)).

(** Lines 112 and 255: [sorted(set(y for y, m in year_month_pairs))] *)
Definition years (df : DataFrame) : list Z :=
  merge_sort Z.le
    (elements (list_to_set (List.map fst (year_month_pairs df)) : gset Z)).

(** [sorted(m for y, m in year_month_pairs if y == year)] *)
Definition months_of (pairs : list (Z * Z)) (year : Z) : list Z :=
  merge_sort Z.le (List.map snd (filter (fun p => fst p = year) pairs)).

(** Lines 113 and 256: the dict comprehension over [years]. *)
Definition months_lookup (df : DataFrame) : gmap Z (list Z) :=
  foldl (fun d year => <[year := months_of (year_month_pairs df) year]> d)
        ∅ (years df).

(** [datetime(1900, m, 1).strftime('%B')]: the English month name; the
    constructor raises [ValueError] outside 1..12. *)
Definition month_name (m : Z) : option Month :=
  match m with
  | 1 => Some January | 2 => Some February | 3 => Some March
  | 4 => Some April | 5 => Some May | 6 => Some June
  | 7 => Some July | 8 => Some August | 9 => Some September
  | 10 => Some October | 11 => Some November | 12 => Some December
  | _ => None
  end%Z.

(** Lines 120, 125 and 263: the options of a month select box for a year;
    nothing when [months_lookup[year]] is a [KeyError]. *)
Definition month_options (df : DataFrame) (year : Z) : option (list Month) :=
  months_lookup df !! year ≫= mapM month_name.

(** Line 128: [datetime.strptime(f"{month_start} {year_start}", "%B %Y")],
    midnight of the first day of the month. *)
Definition start_dt (y : Z) (m : Month) : Timestamp := mkTs (start_month_dt y m) 0.

(** Lines 129-130: the same for the end month, then
    [end_dt.replace(day=1) + pd.offsets.MonthEnd(1)]: midnight of the last
    day of the month. *)
Definition end_dt (y : Z) (m : Month) : Timestamp := mkTs (end_month_dt y m) 0.

(** A date of the calendar. *)
Definition valid_date (d : Date) : bool :=
  match month_name (month d) with
  | Some m => ((1 <=? day d) && (day d <=? days_in_month (year d) m))%Z
  | None => false
  end.

Definition row_sensor (x : nat * Row) : string := Sensor_ID (snd x).

(** Lines 327-330: the frame behind the map. *)
Definition latest_locations (sort_values : DataFrame -> DataFrame) (df : DataFrame)
  : view DataFrame :=
  if empty df then Warning "No data available for selected filters."
  else Shown (groupby_tail1 row_sensor (sort_values df)).





(** Lines 213-220 *)
Definition color_map : gmap string string :=
  list_to_map
    [("Good", "#00e400"); ("Moderate", "#ffff00");
     ("Unhealthy (Sensitive)", "#ff7e00"); ("Unhealthy", "#ff0000");
     ("Very Unhealthy", "#8f3f97"); ("Hazardous", "#7e0023")].

(** One reading at hour [h] of 31 January 2024. *)
Definition last_day_row (h : Z) : nat * Row :=
  (0%nat, reading "s1" "A" (mkDate 2024 1 31) h 40).

(** Two sensors of one ZIP code reporting on two days. *)
Definition two_sensors : DataFrame :=
  fetchdf [reading "s1" "A" (mkDate 2024 1 15) 8 40;
           reading "s2" "A" (mkDate 2024 1 15) 8 70;
           reading "s1" "A" (mkDate 2024 2 16) 9 60;
           reading "s2" "A" (mkDate 2024 2 16) 7 55].

(** The marker names the remote revision but the cache file is gone, and
    the download breaks. *)
Definition world_lost_file : World :=
  mkWorld (<[rev_path := "fedcba9876543210"]> ∅)
          (Some "fedcba9876543210") None 0 0.

(* ===================================================================== *)
(** * Vocabulary of the statements *)
(* ===================================================================== *)

(** The world after the metadata call. *)
Definition after_metadata (w : World) : World :=
  mkWorld (fs w) (metadata w) (download w) (S (metadata_calls w)) (download_calls w).

(** A revision without blanks; Dropbox revisions are strings of hexadecimal
    digits. *)
Fixpoint plain (s : string) : bool :=
  match s with
  | EmptyString => true
  | String c rest => negb (isspace c) && plain rest
  end.

(** Orders used to state that a frame or a series is sorted. *)
Definition ts_le (a b : nat * Row) : Prop := ts_leb (row_ts a) (row_ts b) = true.
Definition date_lt {V} (a b : Date * V) : Prop := date_compare (fst a) (fst b) = Lt.

Definition key_lt {A} (key : A -> nat) (a b : A) : Prop := (key a < key b)%nat.
Definition key_le {A} (key : A -> nat) (a b : A) : Prop := (key a <= key b)%nat.

Definition code_of (x : Category * nat) : nat := category_code (fst x).

(** How often a category occurs in a column. *)
Definition count (c : Category) (cs : list Category) : nat :=
  length (List.filter (Category_eqb c) cs).

(** The count a tally holds for a category, 0 when it has no entry. *)
Fixpoint tally_get (c : Category) (acc : list (Category * nat)) : nat :=
  match acc with
  | [] => 0
  | (c', n) :: rest => if Category_eqb c c' then n else tally_get c rest
  end.

(** The buckets the histogram holds by construction: the categories that
    occur, in the order of [category_order], each with its row count. *)
Definition present_buckets (cs : list Category) : list (Category * nat) :=
  List.filter (fun b => (0 <? snd b)%nat)
              (List.map (fun c => (c, count c cs)) category_order).

(** The values filed under a date, none when the date has no group. *)
Fixpoint group_values (d : Date) (groups : list (Date * list Q)) : list Q :=
  match groups with
  | [] => []
  | (d', vs) :: rest => if date_eqb d d' then vs else group_values d rest
  end.

(** The rows of a frame that fall on a date, as their AQI values. *)
Definition values_on (d : Date) (df : DataFrame) : list Q :=
  List.map row_aqi (List.filter (fun x => date_eqb d (row_date x)) df).

(** The summary of the two-ZIP sample table: one date, neither good nor
    unhealthy. *)
Definition two_zips_summary : Summary :=
  mkSummary 60 ("A", 30%Q) ("B", 90%Q) 0 0 1 0%float 0%float 2.

(* ===================================================================== *)
(** * The snapshot cache: what [load_data] does *)
(* ===================================================================== *)

Lemma load_data_cases db w remote_rev :
  metadata w = Some remote_rev ->
  load_data db w =
    if up_to_date w remote_rev
    then read_table db local_path (after_metadata w)
    else download_fresh db remote_rev (after_metadata w).
Proof.
  intros Hmeta.
  unfold load_data, up_to_date, local_rev, mbind, M_bind, files_get_metadata,
    path_exists, read_text.
  rewrite Hmeta. cbv beta iota zeta. cbn [fs].
  replace (mkWorld (fs w) (Some remote_rev) (download w)
             (S (metadata_calls w)) (download_calls w))
    with (after_metadata w) by (unfold after_metadata; now rewrite Hmeta).
  destruct (fs w !! local_path) as [content|] eqn:Hlocal;
    destruct (fs w !! rev_path) as [text|] eqn:Hrev; cbn; try reflexivity.
  rewrite Hrev. cbn. unfold strip.
  destruct (String.eqb_spec (rstrip (lstrip (universal_newlines text))) remote_rev)
    as [->|Hne].
  - rewrite bool_decide_eq_true_2 by reflexivity. reflexivity.
  - rewrite bool_decide_eq_false_2 by congruence. reflexivity.
Qed.

Lemma local_path_neq_rev_path : local_path <> rev_path.
Proof. discriminate. Qed.

(** The download path when the transfer breaks: the cache file has already
    been cut to length zero, nothing else is written. *)
Lemma download_fresh_broken db remote_rev w :
  download w = None ->
  download_fresh db remote_rev w =
    (Raise DownloadError,
     mkWorld (<[local_path := ""]> (fs w)) (metadata w) (download w)
             (metadata_calls w) (S (download_calls w))).
Proof.
  intros Hdl.
  unfold download_fresh, mbind, M_bind, open_truncate, files_download, set_fs.
  cbn. rewrite Hdl. reflexivity.
Qed.

(** The download path when the transfer delivers [content]. *)
Lemma download_fresh_delivered db remote_rev w content :
  download w = Some content ->
  download_fresh db remote_rev w =
    read_table db local_path
      (mkWorld (<[rev_path := remote_rev]> (<[local_path := content]> (fs w)))
               (metadata w) (download w)
               (metadata_calls w) (S (download_calls w))).
Proof.
  intros Hdl.
  unfold download_fresh, mbind, M_bind, open_truncate, files_download, write, set_fs.
  cbn. rewrite Hdl. cbn.
  rewrite !insert_insert_eq. reflexivity.
Qed.

Lemma read_table_world db path w :
  snd (read_table db path w) = w.
Proof. unfold read_table. destruct (fs w !! path ≫= db); reflexivity. Qed.

Lemma read_table_rows db path w content rows :
  fs w !! path = Some content -> db content = Some rows ->
  fst (read_table db path w) = Ok (fetchdf rows).
Proof.
  intros Hfile Hdb. unfold read_table. rewrite Hfile. cbn. rewrite Hdb. reflexivity.
Qed.

Lemma up_to_date_true w remote_rev content :
  fs w !! local_path = Some content -> local_rev w = Some remote_rev ->
  up_to_date w remote_rev = true.
Proof.
  intros Hfile Hrev. unfold up_to_date. rewrite Hfile, Hrev.
  rewrite !bool_decide_eq_true_2; eauto.
Qed.

(** A missing cache file, a missing marker or a marker holding another
    revision all make the cache stale. *)
Lemma up_to_date_false w remote_rev :
  fs w !! local_path = None \/ fs w !! rev_path = None
    \/ local_rev w <> Some remote_rev ->
  up_to_date w remote_rev = false.
Proof.
  intros H. unfold up_to_date, local_rev in *.
  apply andb_false_iff.
  destruct H as [H | [H | H]].
  - left. rewrite H. apply bool_decide_eq_false_2. intros [? ?]; discriminate.
  - right. rewrite H. apply bool_decide_eq_false_2. discriminate.
  - right. apply bool_decide_eq_false_2. exact H.
Qed.

(** A revision without blanks is read back from the marker as it was
    written. *)
Lemma universal_newlines_plain s : plain s = true -> universal_newlines s = s.
Proof.
  induction s as [|c rest IH]; cbn [plain universal_newlines]; [reflexivity|].
  intros H. apply andb_true_iff in H. destruct H as [Hc Hrest].
  destruct (Ascii.eqb_spec c "013"%char) as [->|_]; [discriminate Hc|].
  now rewrite IH.
Qed.

Lemma rstrip_plain s : plain s = true -> rstrip s = s.
Proof.
  induction s as [|c rest IH]; cbn [plain rstrip]; [reflexivity|].
  intros H. apply andb_true_iff in H. destruct H as [Hc Hrest].
  rewrite (IH Hrest). apply negb_true_iff in Hc. rewrite Hc.
  now destruct rest.
Qed.

Lemma strip_plain s : plain s = true -> strip (universal_newlines s) = s.
Proof.
  intros H. rewrite (universal_newlines_plain s H). unfold strip.
  destruct s as [|c rest]; [reflexivity|].
  cbn [lstrip]. pose proof H as H'. cbn [plain] in H'.
  apply andb_true_iff in H'. destruct H' as [Hc _].
  apply negb_true_iff in Hc. rewrite Hc. now apply rstrip_plain.
Qed.

Lemma local_rev_plain_marker w remote_rev :
  plain remote_rev = true ->
  fs w !! rev_path = Some remote_rev ->
  local_rev w = Some remote_rev.
Proof.
  intros Hplain Hfile. unfold local_rev. rewrite Hfile. cbn.
  f_equal. now apply strip_plain.
Qed.

(** The memo of [st.cache_data] answers without touching the world. *)
Lemma load_data_cached_hit db df w :
  load_data_cached db (Some df) w = (Ok df, Some df, w).
Proof. reflexivity. Qed.

Lemma load_data_cached_miss db w :
  load_data_cached db None w =
    match load_data db w with
    | (Ok df, w') => (Ok df, Some df, w')
    | (Raise e, w') => (Raise e, None, w')
    end.
Proof. reflexivity. Qed.

(** C1. When the cache file and the revision marker both exist and the
    revision read from the marker is the one the metadata lookup returns,
    [load_data] makes no download call, returns the rows of the cache file
    and leaves the file system (cache file and marker included) as it
    was. *)
Theorem load_data_current_cache db w remote_rev content rows :
  metadata w = Some remote_rev ->
  fs w !! local_path = Some content ->
  local_rev w = Some remote_rev ->
  db content = Some rows ->
  fst (load_data db w) = Ok (fetchdf rows)
  /\ download_calls (snd (load_data db w)) = download_calls w
  /\ fs (snd (load_data db w)) = fs w.
Proof.
  intros Hmeta Hfile Hrev Hdb.
  rewrite (load_data_cases db w remote_rev Hmeta).
  rewrite (up_to_date_true w remote_rev content Hfile Hrev).
  rewrite read_table_world.
  split; [|split; reflexivity].
  apply read_table_rows with content; assumption.
Qed.

Lemma load_data_current_cache_witness :
  fst (load_data sample_db world_current) = Ok (fetchdf old_rows)
  /\ download_calls (snd (load_data sample_db world_current))
     = download_calls world_current
  /\ fs (snd (load_data sample_db world_current)) = fs world_current.
Proof.
  apply (load_data_current_cache sample_db world_current
           "0123456789abcdef" "DUCK-OLD" old_rows); reflexivity.
Defined.

(** C2, as the code has it.  When the cache is stale and the download
    breaks, [load_data] raises [DownloadError] after exactly one download
    call and leaves the revision marker as it was; the cache file is left
    empty, because it is opened for writing before the download starts. *)
Theorem load_data_broken_download db w remote_rev :
  metadata w = Some remote_rev ->
  up_to_date w remote_rev = false ->
  download w = None ->
  fst (load_data db w) = Raise DownloadError
  /\ fs (snd (load_data db w)) = <[local_path := ""]> (fs w)
  /\ fs (snd (load_data db w)) !! rev_path = fs w !! rev_path
  /\ download_calls (snd (load_data db w)) = S (download_calls w).
Proof.
  intros Hmeta Hstale Hdl.
  rewrite (load_data_cases db w remote_rev Hmeta), Hstale.
  rewrite download_fresh_broken by exact Hdl. cbn.
  repeat split.
  rewrite lookup_insert_ne by exact local_path_neq_rev_path. reflexivity.
Qed.

Lemma load_data_broken_download_witness :
  fst (load_data sample_db world_broken_download) = Raise DownloadError
  /\ fs (snd (load_data sample_db world_broken_download))
     = <[local_path := ""]> (fs world_broken_download)
  /\ fs (snd (load_data sample_db world_broken_download)) !! rev_path
     = fs world_broken_download !! rev_path
  /\ download_calls (snd (load_data sample_db world_broken_download))
     = S (download_calls world_broken_download).
Proof.
  apply (load_data_broken_download sample_db world_broken_download
           "fedcba9876543210"); reflexivity.
Defined.

(** C2 as stated fails: a broken download does not leave the cache file
    byte-identical, it leaves it empty. *)
Lemma broken_download_empties_cache :
  download world_broken_download = None
  /\ fs world_broken_download !! local_path = Some "DUCK-OLD"
  /\ fs (snd (load_data sample_db world_broken_download)) !! local_path = Some ""
  /\ fs (snd (load_data sample_db world_broken_download)) !! local_path
     <> fs world_broken_download !! local_path.
Proof.
  repeat split; try reflexivity.
  vm_compute. discriminate.
Qed.

(** C3, as the code has it.  When the metadata lookup fails, [load_data]
    raises [RemoteMetadataError] whether or not a cache is on disk: the
    call is not guarded, nothing is read, downloaded or written. *)
Theorem load_data_metadata_failure db w :
  metadata w = None ->
  fst (load_data db w) = Raise RemoteMetadataError
  /\ download_calls (snd (load_data db w)) = download_calls w
  /\ fs (snd (load_data db w)) = fs w.
Proof.
  intros Hmeta.
  unfold load_data, mbind, M_bind, files_get_metadata.
  rewrite Hmeta. cbn. repeat split.
Qed.

Lemma load_data_metadata_failure_witness :
  fst (load_data sample_db world_offline) = Raise RemoteMetadataError
  /\ download_calls (snd (load_data sample_db world_offline))
     = download_calls world_offline
  /\ fs (snd (load_data sample_db world_offline)) = fs world_offline.
Proof.
  apply (load_data_metadata_failure sample_db world_offline); reflexivity.
Defined.

(** C3 as stated fails: with a readable cache and its marker on disk, a
    failed metadata lookup is raised instead of the cached rows being
    returned. *)
Lemma no_fallback_to_cache :
  metadata world_offline = None
  /\ fs world_offline !! local_path ≫= sample_db = Some old_rows
  /\ is_Some (fs world_offline !! rev_path)
  /\ fst (load_data sample_db world_offline) = Raise RemoteMetadataError
  /\ fst (load_data sample_db world_offline) <> Ok (fetchdf old_rows).
Proof.
  repeat split; try reflexivity.
  - eexists; reflexivity.
  - discriminate.
Qed.

(** C4. When the cache is stale (the cache file or the marker is missing,
    or the marker holds another revision than the remote one), [load_data]
    makes exactly one download call.  When that download delivers, the
    marker file afterwards holds the remote revision, the cache file holds
    the downloaded bytes, and the table returned is the one read from that
    file.  A revision without outer blanks or carriage returns is also
    read back unchanged from the marker. *)
Theorem load_data_stale_cache db w remote_rev :
  metadata w = Some remote_rev ->
  (fs w !! local_path = None \/ fs w !! rev_path = None
   \/ local_rev w <> Some remote_rev) ->
  download_calls (snd (load_data db w)) = S (download_calls w)
  /\ forall content,
       download w = Some content ->
       fs (snd (load_data db w)) !! rev_path = Some remote_rev
       /\ fs (snd (load_data db w)) !! local_path = Some content
       /\ (forall rows, db content = Some rows ->
             fst (load_data db w) = Ok (fetchdf rows))
       /\ (strip (universal_newlines remote_rev) = remote_rev ->
             local_rev (snd (load_data db w)) = Some remote_rev).
Proof.
  intros Hmeta Hstale.
  rewrite (load_data_cases db w remote_rev Hmeta).
  rewrite (up_to_date_false w remote_rev Hstale).
  split.
  - destruct (download w) as [content|] eqn:Hdl.
    + rewrite (download_fresh_delivered db remote_rev _ content) by exact Hdl.
      rewrite read_table_world. reflexivity.
    + rewrite download_fresh_broken by exact Hdl. reflexivity.
  - intros content Hdl.
    rewrite (download_fresh_delivered db remote_rev _ content) by exact Hdl.
    rewrite read_table_world. cbn [fs after_metadata].
    assert (Hmarker : <[rev_path := remote_rev]> (<[local_path := content]> (fs w))
                        !! rev_path = Some remote_rev)
      by apply lookup_insert_eq.
    assert (Hfile : <[rev_path := remote_rev]> (<[local_path := content]> (fs w))
                      !! local_path = Some content).
    { rewrite lookup_insert_ne by (intros E; symmetry in E; revert E;
                                   exact local_path_neq_rev_path).
      apply lookup_insert_eq. }
    repeat split.
    + exact Hmarker.
    + exact Hfile.
    + intros rows Hdb. apply read_table_rows with content; assumption.
    + intros Hclean. unfold local_rev. cbn [fs]. rewrite Hmarker. cbn.
      f_equal. exact Hclean.
Qed.

Lemma load_data_stale_cache_witness :
  download_calls (snd (load_data sample_db world_stale))
  = S (download_calls world_stale)
  /\ forall content,
       download world_stale = Some content ->
       fs (snd (load_data sample_db world_stale)) !! rev_path
       = Some "fedcba9876543210"
       /\ fs (snd (load_data sample_db world_stale)) !! local_path = Some content
       /\ (forall rows, sample_db content = Some rows ->
             fst (load_data sample_db world_stale) = Ok (fetchdf rows))
       /\ (strip (universal_newlines "fedcba9876543210") = "fedcba9876543210" ->
             local_rev (snd (load_data sample_db world_stale))
             = Some "fedcba9876543210").
Proof.
  apply (load_data_stale_cache sample_db world_stale "fedcba9876543210").
  - reflexivity.
  - right; right. vm_compute. discriminate.
Defined.

(** On the sample world the stale path ends with the new table. *)
Example load_data_stale_sample :
  fst (load_data sample_db world_stale) = Ok (fetchdf new_rows)
  /\ local_rev (snd (load_data sample_db world_stale)) = Some "fedcba9876543210".
Proof. split; reflexivity. Qed.

(* ===================================================================== *)
(** * AQI categories *)
(* ===================================================================== *)

Lemma Qle_bool_false x y : Qle_bool x y = false <-> (y < x)%Q.
Proof.
  split; intros H.
  - apply Qnot_le_lt. intros Hle. apply Qle_bool_iff in Hle. congruence.
  - destruct (Qle_bool x y) eqn:E; [|reflexivity].
    apply Qle_bool_iff in E. lra.
Qed.

(** Case analysis on the five threshold tests of a finite reading. *)
Ltac thresholds x :=
  unfold categorize_aqi, num_le;
  destruct (Qle_bool x 50) eqn:?H50; destruct (Qle_bool x 100) eqn:?H100;
  destruct (Qle_bool x 150) eqn:?H150; destruct (Qle_bool x 200) eqn:?H200;
  destruct (Qle_bool x 300) eqn:?H300;
  repeat match goal with
    | H : Qle_bool _ _ = true |- _ => apply Qle_bool_iff in H
    | H : Qle_bool _ _ = false |- _ => apply Qle_bool_false in H
    end.

(** C5. The boundary values fall in the band they close, and every finite
    reading is mapped by the inclusive upper bounds 50, 100, 150, 200 and
    300. *)
Theorem categorize_aqi_bands :
  (categorize_aqi (Finite 50) = Good
   /\ categorize_aqi (Finite 51) = Moderate
   /\ categorize_aqi (Finite 100) = Moderate
   /\ categorize_aqi (Finite 101) = UnhealthySensitive
   /\ categorize_aqi (Finite 150) = UnhealthySensitive
   /\ categorize_aqi (Finite 200) = Unhealthy
   /\ categorize_aqi (Finite 300) = VeryUnhealthy
   /\ categorize_aqi (Finite 301) = Hazardous)
  /\ forall x : Q,
       ((x <= 50)%Q -> categorize_aqi (Finite x) = Good)
       /\ ((51 <= x <= 100)%Q -> categorize_aqi (Finite x) = Moderate)
       /\ ((101 <= x <= 150)%Q -> categorize_aqi (Finite x) = UnhealthySensitive)
       /\ ((151 <= x <= 200)%Q -> categorize_aqi (Finite x) = Unhealthy)
       /\ ((201 <= x <= 300)%Q -> categorize_aqi (Finite x) = VeryUnhealthy)
       /\ ((300 < x)%Q -> categorize_aqi (Finite x) = Hazardous).
Proof.
  split.
  - repeat split.
  - intros x. repeat split; intros Hx; thresholds x; try reflexivity; lra.
Qed.

(** Readings strictly between two whole-number bands go to the upper
    one. *)
Example categorize_aqi_between_bands :
  categorize_aqi (Finite (101 # 2)) = Moderate.
Proof. reflexivity. Qed.

(** C10. [categorize_aqi] answers on every number, finite or not, with
    exactly one of the six categories, and everything that compares at most
    50, every negative reading included, is Good. *)
Theorem categorize_aqi_total :
  forall x : number,
    (exists! c, In c category_order /\ categorize_aqi x = c)
    /\ (num_le x 50 = true -> categorize_aqi x = Good)
    /\ (forall q : Q, x = Finite q ->
          ((q <= 50)%Q -> categorize_aqi x = Good)
          /\ ((q < 0)%Q -> categorize_aqi x = Good)).
Proof.
  intros x. split; [|split].
  - exists (categorize_aqi x). split.
    + split; [|reflexivity].
      destruct (categorize_aqi x); cbn; tauto.
    + intros c [_ Hc]. exact Hc.
  - intros H. unfold categorize_aqi. rewrite H. reflexivity.
  - intros q ->. split; intros Hq; thresholds q; try reflexivity; lra.
Qed.

(** The non-finite inputs: minus infinity is Good; plus infinity and NaN
    fail every test and end in the last branch. *)
Example categorize_aqi_non_finite :
  categorize_aqi NegInf = Good
  /\ categorize_aqi PosInf = Hazardous
  /\ categorize_aqi NaN = Hazardous.
Proof. repeat split. Qed.

(* ===================================================================== *)
(** * The category histogram *)
(* ===================================================================== *)

Lemma Category_eqb_spec a b : reflect (a = b) (Category_eqb a b).
Proof.
  destruct a, b; vm_compute; constructor; congruence.
Qed.

Lemma category_code_inj a b : category_code a = category_code b -> a = b.
Proof. destruct a, b; vm_compute; congruence. Qed.

Section SortedByKey.

Context {A : Type} (key : A -> nat).

(** Two strictly sorted lists with the same elements are the same list. *)
Lemma strictly_sorted_unique (l1 l2 : list A) :
  StronglySorted (key_lt key) l1 -> StronglySorted (key_lt key) l2 ->
  (forall x, In x l1 <-> In x l2) -> l1 = l2.
Proof.
  revert l2. induction l1 as [|a l1 IH]; intros [|b l2] S1 S2 Hin.
  - reflexivity.
  - destruct (proj2 (Hin b)). now left.
  - destruct (proj1 (Hin a)). now left.
  - inversion S1 as [|? ? S1' F1]; inversion S2 as [|? ? S2' F2]; subst.
    rewrite List.Forall_forall in F1, F2. unfold key_lt in F1, F2.
    assert (a = b) as ->.
    { destruct (proj1 (Hin a)) as [E|E]; [now left| now symmetry |].
      destruct (proj2 (Hin b)) as [E'|E']; [now left| exact E' |].
      specialize (F1 _ E'). specialize (F2 _ E). lia. }
    f_equal. apply IH; try assumption.
    intros x; split; intros Hx.
    + destruct (proj1 (Hin x)) as [E|E]; [now right| |exact E].
      subst x. specialize (F1 _ Hx). lia.
    + destruct (proj2 (Hin x)) as [E|E]; [now right| |exact E].
      subst x. specialize (F2 _ Hx). lia.
Qed.

Lemma sorted_distinct_strict (l : list A) :
  (forall a b, key a = key b -> In a l -> In b l -> a = b) ->
  List.NoDup l ->
  StronglySorted (key_le key) l -> StronglySorted (key_lt key) l.
Proof.
  intros Hinj Hnd Hs. induction Hs as [|a l Hs IH F]; constructor.
  - apply IH.
    + intros x y E Hx Hy. apply Hinj; [exact E | now right | now right].
    + now inversion Hnd.
  - rewrite List.Forall_forall in *. intros x Hx.
    specialize (F x Hx). unfold key_le, key_lt in *.
    destruct (Nat.eq_dec (key a) (key x)) as [E|E]; [|lia].
    apply Hinj in E; [| now left | now right]. subst x.
    inversion Hnd; contradiction.
Qed.

Lemma filter_strictly_sorted (p : A -> bool) (l : list A) :
  StronglySorted (key_lt key) l -> StronglySorted (key_lt key) (List.filter p l).
Proof.
  induction 1 as [|a l Hs IH F]; cbn; [constructor|].
  destruct (p a); [|exact IH].
  constructor; [exact IH|].
  rewrite List.Forall_forall in *. intros x Hx.
  apply List.filter_In in Hx. apply F, Hx.
Qed.

End SortedByKey.

Arguments category_code : simpl never.
Arguments Category_eqb : simpl never.

Lemma insert_by_category_perm x l :
  Permutation (insert_by_category x l) (x :: l).
Proof.
  induction l as [|y l IH]; cbn [insert_by_category]; [reflexivity|].
  destruct (category_code (fst x) <? category_code (fst y))%nat; [reflexivity|].
  rewrite IH. apply perm_swap.
Qed.

Lemma sort_by_category_perm l : Permutation (sort_by_category l) l.
Proof.
  induction l as [|x l IH]; cbn; [reflexivity|].
  rewrite insert_by_category_perm. now constructor.
Qed.

Lemma insert_by_category_sorted x l :
  StronglySorted (key_le code_of) l ->
  StronglySorted (key_le code_of) (insert_by_category x l).
Proof.
  induction 1 as [|y l Hs IH F]; cbn [insert_by_category].
  - repeat constructor.
  - destruct (Nat.ltb_spec (category_code (fst x)) (category_code (fst y))) as [Hlt|Hge].
    + constructor; [now constructor|].
      constructor; [unfold key_le, code_of; lia|].
      rewrite List.Forall_forall in *. intros z Hz. specialize (F z Hz).
      unfold key_le, code_of in *. lia.
    + constructor; [exact IH|].
      rewrite List.Forall_forall in *. intros z Hz.
      apply (Permutation_in _ (insert_by_category_perm x l)) in Hz.
      destruct Hz as [<-|Hz]; [exact Hge | now apply F].
Qed.

Lemma sort_by_category_sorted l :
  StronglySorted (key_le code_of) (sort_by_category l).
Proof.
  induction l as [|x l IH]; cbn; [constructor|].
  now apply insert_by_category_sorted.
Qed.

Lemma insert_by_count_perm x l : Permutation (insert_by_count x l) (x :: l).
Proof.
  induction l as [|y l IH]; cbn [insert_by_count]; [reflexivity|].
  destruct (snd y <? snd x)%nat; [reflexivity|].
  rewrite IH. apply perm_swap.
Qed.

Lemma value_counts_perm cs : Permutation (value_counts cs) (tally cs).
Proof.
  unfold value_counts. induction (tally cs) as [|x l IH]; cbn; [reflexivity|].
  rewrite insert_by_count_perm. now constructor.
Qed.

Lemma count_cons c x cs :
  count c (x :: cs) = ((if Category_eqb c x then 1 else 0) + count c cs)%nat.
Proof. unfold count. cbn [List.filter]. now destruct (Category_eqb c x). Qed.

Lemma count_rev c cs : count c (rev cs) = count c cs.
Proof.
  unfold count. induction cs as [|x cs IH]; [reflexivity|].
  cbn [rev List.filter]. rewrite List.filter_app, List.length_app, IH.
  cbn [List.filter]. destruct (Category_eqb c x); cbn; lia.
Qed.

Lemma tally_get_insert c' c acc :
  tally_get c' (tally_insert c acc) =
    if Category_eqb c' c then S (tally_get c acc) else tally_get c' acc.
Proof.
  induction acc as [|[c0 n] rest IH]; cbn [tally_insert tally_get].
  - now destruct (Category_eqb c' c).
  - destruct (Category_eqb_spec c c0) as [->|Hne]; cbn [tally_get].
    + destruct (Category_eqb_spec c' c0) as [->|Hne']; reflexivity.
    + rewrite IH.
      destruct (Category_eqb_spec c' c0) as [->|Hne'];
        destruct (Category_eqb_spec c0 c) as [E|_]; congruence || reflexivity.
Qed.

Lemma tally_insert_keys k c acc :
  In k (List.map fst (tally_insert c acc)) <-> k = c \/ In k (List.map fst acc).
Proof.
  induction acc as [|[c0 n] rest IH]; cbn [tally_insert].
  - cbn. intuition.
  - destruct (Category_eqb_spec c c0) as [->|Hne]; cbn in *; intuition.
Qed.

Lemma tally_insert_nodup c acc :
  List.NoDup (List.map fst acc) -> List.NoDup (List.map fst (tally_insert c acc)).
Proof.
  induction acc as [|[c0 n] rest IH]; cbn [tally_insert]; intros Hnd.
  - cbn. constructor; [intros []|constructor].
  - inversion Hnd as [|? ? Hnotin Hnd']; subst.
    destruct (Category_eqb_spec c c0) as [->|Hne]; cbn [List.map fst].
    + now constructor.
    + constructor; [|now apply IH].
      rewrite tally_insert_keys. intros [E|E]; [congruence|contradiction].
Qed.

Lemma tally_insert_positive c acc :
  Forall (fun p => (0 < snd p)%nat) acc ->
  Forall (fun p => (0 < snd p)%nat) (tally_insert c acc).
Proof.
  induction 1 as [|[c0 n] rest Hn Hrest IH]; cbn [tally_insert].
  - repeat constructor.
  - destruct (Category_eqb c c0); constructor; cbn in *; auto; lia.
Qed.

Lemma tally_get_in c n acc :
  List.NoDup (List.map fst acc) -> In (c, n) acc -> tally_get c acc = n.
Proof.
  induction acc as [|[c0 m] rest IH]; cbn [tally_get]; intros Hnd Hin; [destruct Hin|].
  inversion Hnd as [|? ? Hnotin Hnd']; subst.
  destruct Hin as [E|Hin].
  - inversion E; subst. now destruct (Category_eqb_spec c c).
  - destruct (Category_eqb_spec c c0) as [->|Hne]; [|now apply IH].
    exfalso. apply Hnotin. apply in_map_iff. now exists (c0, n).
Qed.

Lemma tally_get_positive_in c acc :
  (0 < tally_get c acc)%nat -> In (c, tally_get c acc) acc.
Proof.
  induction acc as [|[c0 m] rest IH]; cbn [tally_get]; intros Hpos; [lia|].
  destruct (Category_eqb_spec c c0) as [->|Hne]; [now left | right; now apply IH].
Qed.

Lemma tally_unfold cs : tally cs = fold_right tally_insert [] (rev cs).
Proof. unfold tally. now rewrite fold_left_rev_right. Qed.

Lemma tally_facts cs :
  List.NoDup (List.map fst (tally cs))
  /\ Forall (fun p => (0 < snd p)%nat) (tally cs)
  /\ forall c, tally_get c (tally cs) = count c cs.
Proof.
  rewrite tally_unfold.
  assert (H : forall l,
             List.NoDup (List.map fst (fold_right tally_insert [] l))
             /\ Forall (fun p => (0 < snd p)%nat) (fold_right tally_insert [] l)
             /\ forall c, tally_get c (fold_right tally_insert [] l) = count c l).
  { induction l as [|x l (Hnd & Hpos & Hget)]; cbn [fold_right].
    - repeat split; constructor.
    - split; [now apply tally_insert_nodup|].
      split; [now apply tally_insert_positive|].
      intros c. rewrite tally_get_insert, count_cons, !Hget.
      destruct (Category_eqb_spec c x) as [->|_]; reflexivity. }
  destruct (H (rev cs)) as (Hnd & Hpos & Hget).
  repeat split; try assumption.
  intros c. now rewrite Hget, count_rev.
Qed.

(** An entry of the tally is a category that occurs, with its count. *)
Lemma tally_entries cs c n :
  In (c, n) (tally cs) <-> n = count c cs /\ (0 < n)%nat.
Proof.
  destruct (tally_facts cs) as (Hnd & Hpos & Hget).
  split.
  - intros Hin. split.
    + rewrite <- Hget. symmetry. now apply tally_get_in.
    + rewrite List.Forall_forall in Hpos. exact (Hpos _ Hin).
  - intros [-> Hn]. rewrite <- Hget in *. now apply tally_get_positive_in.
Qed.

Lemma all_categories_listed c : In c category_order.
Proof. destruct c; cbn; tauto. Qed.

Lemma present_buckets_sorted cs :
  StronglySorted (key_lt code_of) (present_buckets cs).
Proof.
  apply filter_strictly_sorted.
  unfold category_order. cbn [List.map].
  repeat (constructor; [| repeat (constructor; [vm_compute; lia|]); constructor]).
  constructor.
Qed.

Lemma present_buckets_entries cs c n :
  In (c, n) (present_buckets cs) <-> n = count c cs /\ (0 < n)%nat.
Proof.
  unfold present_buckets. rewrite List.filter_In, in_map_iff. cbn [snd].
  rewrite Nat.ltb_lt. split.
  - intros [(c' & E & _) Hn]. inversion E; subst. now split.
  - intros [-> Hn]. split; [|exact Hn].
    exists c. split; [reflexivity | apply all_categories_listed].
Qed.

Lemma cat_counts_entries df c n :
  In (c, n) (cat_counts df) <-> n = count c (AQI_Category df) /\ (0 < n)%nat.
Proof.
  rewrite <- tally_entries. unfold cat_counts. split; intros Hin.
  - apply (Permutation_in _ (value_counts_perm _)).
    apply (Permutation_in _ (sort_by_category_perm _)). exact Hin.
  - apply (Permutation_in _ (Permutation_sym (sort_by_category_perm _))).
    apply (Permutation_in _ (Permutation_sym (value_counts_perm _))). exact Hin.
Qed.

Lemma cat_counts_nodup df : List.NoDup (cat_counts df).
Proof.
  apply (NoDup_map_inv fst).
  destruct (tally_facts (AQI_Category df)) as (Hnd & _).
  eapply Permutation_NoDup; [|exact Hnd].
  apply Permutation_map. unfold cat_counts.
  rewrite sort_by_category_perm, value_counts_perm. reflexivity.
Qed.

(** The frame [cat_counts] is exactly the list of the categories that
    occur, in category order. *)
Lemma cat_counts_present df : cat_counts df = present_buckets (AQI_Category df).
Proof.
  apply (strictly_sorted_unique code_of).
  - apply sorted_distinct_strict.
    + intros [c n] [c' n'] E Ha Hb. unfold code_of in E. cbn [fst] in E.
      apply category_code_inj in E. subst c'.
      apply cat_counts_entries in Ha, Hb.
      destruct Ha as [-> _], Hb as [-> _]. reflexivity.
    + apply cat_counts_nodup.
    + apply sort_by_category_sorted.
  - apply present_buckets_sorted.
  - intros [c n]. now rewrite cat_counts_entries, present_buckets_entries.
Qed.

Lemma list_sum_map_plus {A} (f g : A -> nat) l :
  list_sum (List.map (fun x => f x + g x)%nat l)
  = (list_sum (List.map f l) + list_sum (List.map g l))%nat.
Proof.
  unfold list_sum.
  induction l as [|x l IH]; cbn [List.map fold_right]; [reflexivity | rewrite IH; lia].
Qed.

Lemma one_category_each x :
  list_sum (List.map (fun c => if Category_eqb c x then 1 else 0)%nat category_order)
  = 1%nat.
Proof. destruct x; vm_compute; reflexivity. Qed.

Lemma counts_sum cs :
  list_sum (List.map (fun c => count c cs) category_order) = length cs.
Proof.
  induction cs as [|x cs IH].
  - reflexivity.
  - transitivity
      (list_sum (List.map (fun c => (if Category_eqb c x then 1 else 0)
                                    + count c cs)%nat category_order)).
    + f_equal. apply map_ext. intros c. apply count_cons.
    + rewrite (list_sum_map_plus
                 (fun c => if Category_eqb c x then 1 else 0)%nat
                 (fun c => count c cs)).
      rewrite one_category_each, IH. reflexivity.
Qed.

Lemma list_sum_drop_zero (l : list (Category * nat)) :
  list_sum (List.map snd (List.filter (fun b => (0 <? snd b)%nat) l))
  = list_sum (List.map snd l).
Proof.
  unfold list_sum.
  induction l as [|[c n] l IH]; cbn [List.filter List.map fold_right snd]; [reflexivity|].
  destruct (Nat.ltb_spec 0 n); cbn [List.map fold_right snd]; lia.
Qed.

Lemma present_buckets_sum cs :
  list_sum (List.map snd (present_buckets cs)) = length cs.
Proof.
  unfold present_buckets. rewrite list_sum_drop_zero, List.map_map. cbn [snd].
  apply counts_sum.
Qed.

(** C6, as the code has it.  For a non-empty table the histogram holds one
    bucket for each category that occurs among the rows and none for the
    others: between one and six buckets, in the order Good, Moderate,
    Unhealthy (Sensitive), Unhealthy, Very Unhealthy, Hazardous, each with
    its row count, the counts adding up to the number of rows. *)
Theorem category_distribution_present (df : DataFrame) :
  df <> [] ->
  exists buckets,
    category_distribution df = Shown buckets
    /\ buckets = List.filter (fun b => (0 <? snd b)%nat)
                   (List.map (fun c => (c, rows_in_category c df)) category_order)
    /\ list_sum (List.map snd buckets) = length df
    /\ (1 <= length buckets <= 6)%nat.
Proof.
  intros Hne. exists (cat_counts df).
  assert (Hsum : list_sum (List.map snd (cat_counts df)) = length df).
  { rewrite cat_counts_present, present_buckets_sum.
    unfold AQI_Category. apply List.length_map. }
  split; [|split; [|split; [exact Hsum|split]]].
  - unfold category_distribution. destruct df; [contradiction | reflexivity].
  - apply cat_counts_present.
  - destruct (cat_counts df) eqn:E; cbn [length]; [|lia].
    cbn in Hsum. destruct df; [contradiction | discriminate].
  - rewrite cat_counts_present. unfold present_buckets.
    etransitivity; [apply List.filter_length_le|].
    rewrite List.length_map. reflexivity.
Qed.

Lemma category_distribution_present_witness :
  exists buckets,
    category_distribution january_rows = Shown buckets
    /\ buckets = List.filter (fun b => (0 <? snd b)%nat)
                   (List.map (fun c => (c, rows_in_category c january_rows))
                             category_order)
    /\ list_sum (List.map snd buckets) = length january_rows
    /\ (1 <= length buckets <= 6)%nat.
Proof.
  apply (category_distribution_present january_rows). discriminate.
Defined.

(** C6 as stated fails: a table with one Good reading yields one bucket,
    not six; the five categories without rows are dropped. *)
Lemma absent_categories_dropped :
  one_good_row <> []
  /\ category_distribution one_good_row = Shown [(Good, 1%nat)]
  /\ length [(Good, 1%nat)] <> 6%nat.
Proof.
  split; [discriminate|]. split; [reflexivity | discriminate].
Qed.

Example category_distribution_january :
  category_distribution january_rows = Shown [(Good, 1%nat); (Moderate, 1%nat)].
Proof. reflexivity. Qed.

(* ===================================================================== *)
(** * Dates, groups by date and the monthly series *)
(* ===================================================================== *)

Ltac by_fields :=
  repeat match goal with
    | d : Date |- _ => destruct d
    | t : Timestamp |- _ => destruct t
    end;
  unfold ts_leb, ts_ltb, ts_compare, date_leb, date_eqb, date_compare in *;
  cbn [year month day ts_date ts_hour] in *;
  repeat match goal with
    | |- context [(?a ?= ?b)%Z] => destruct (Z.compare_spec a b)
    | H : context [(?a ?= ?b)%Z] |- _ => destruct (Z.compare_spec a b)
    end; subst; try congruence; try lia.

Lemma date_compare_eq a b : date_compare a b = Eq <-> a = b.
Proof.
  split; [|intros ->; by_fields].
  intros H. by_fields.
Qed.

Lemma date_compare_refl a : date_compare a a = Eq.
Proof. now apply date_compare_eq. Qed.

Lemma date_compare_lt_trans a b c :
  date_compare a b = Lt -> date_compare b c = Lt -> date_compare a c = Lt.
Proof. intros H1 H2. by_fields. Qed.

Lemma date_compare_gt_lt a b : date_compare a b = Gt <-> date_compare b a = Lt.
Proof. split; intros H; by_fields. Qed.

Lemma date_eqb_eq a b : date_eqb a b = true <-> a = b.
Proof.
  unfold date_eqb. rewrite <- date_compare_eq.
  destruct (date_compare a b); split; congruence.
Qed.

Lemma date_eqb_refl a : date_eqb a a = true.
Proof. now apply date_eqb_eq. Qed.

Lemma date_eqb_lt a b : date_compare a b = Lt -> date_eqb a b = false /\ date_eqb b a = false.
Proof.
  intros H. unfold date_eqb. rewrite H. split; [reflexivity|].
  apply date_compare_gt_lt in H. now rewrite H.
Qed.

(** On the dates of the calendar the closed interval is the month. *)
Lemma in_month_spec y m d :
  in_month y m d = true
  <-> year d = y /\ month d = month_num m /\ (1 <= day d <= days_in_month y m)%Z.
Proof.
  unfold in_month, start_month_dt, end_month_dt. rewrite andb_true_iff.
  split.
  - intros [H1 H2]. by_fields.
  - intros (H1 & H2 & H3). destruct d as [y' m' d']. cbn in H1, H2, H3. subst.
    split; by_fields.
Qed.

Lemma group_insert_in d v g x :
  In x (group_insert d v g) -> fst x = d \/ In x g.
Proof.
  induction g as [|[d0 vs] rest IH]; cbn [group_insert].
  - intros [<-|[]]. now left.
  - destruct (date_compare d d0) eqn:E.
    + apply date_compare_eq in E. subst d0.
      intros [<-|H]; [now left | right; now right].
    + intros [<-|H]; [now left | now right].
    + intros [<-|H]; [right; now left|].
      destruct (IH H); [now left | right; now right].
Qed.

Lemma group_insert_sorted d v g :
  StronglySorted date_lt g -> StronglySorted date_lt (group_insert d v g).
Proof.
  induction 1 as [|[d0 vs] rest Hs IH F]; cbn [group_insert].
  - repeat constructor.
  - rewrite List.Forall_forall in F.
    destruct (date_compare d d0) eqn:E.
    + constructor; [exact Hs|]. rewrite List.Forall_forall. exact F.
    + constructor; [constructor; [exact Hs | now rewrite List.Forall_forall]|].
      constructor; [exact E|].
      rewrite List.Forall_forall. intros x Hx.
      exact (date_compare_lt_trans _ _ _ E (F x Hx)).
    + constructor; [exact IH|].
      rewrite List.Forall_forall. intros x Hx.
      destruct (group_insert_in _ _ _ _ Hx) as [Hd|Hin]; [|now apply F].
      unfold date_lt. cbn [fst]. rewrite Hd. now apply date_compare_gt_lt.
Qed.

Lemma groupby_date_sorted df : StronglySorted date_lt (groupby_date df).
Proof.
  induction df as [|x df IH]; cbn [groupby_date]; [constructor|].
  now apply group_insert_sorted.
Qed.

Lemma group_values_below d (g : list (Date * list Q)) :
  Forall (fun x => date_compare d (fst x) = Lt) g -> group_values d g = [].
Proof.
  induction 1 as [|[d0 vs] rest H0 Hrest IH]; cbn [group_values]; [reflexivity|].
  cbn [fst] in H0. destruct (date_eqb_lt _ _ H0) as [-> _]. exact IH.
Qed.

Lemma group_values_insert d' d v g :
  StronglySorted date_lt g ->
  group_values d' (group_insert d v g) =
    if date_eqb d' d then v :: group_values d g else group_values d' g.
Proof.
  induction 1 as [|[d0 vs] rest Hs IH F]; cbn [group_insert group_values].
  - now destruct (date_eqb d' d).
  - destruct (date_compare d d0) eqn:E; cbn [group_values].
    + apply date_compare_eq in E. subst d0. rewrite date_eqb_refl.
      destruct (date_eqb d' d); reflexivity.
    + destruct (date_eqb_lt _ _ E) as [-> _].
      rewrite (group_values_below d rest); [reflexivity|].
      rewrite List.Forall_forall in *. intros x Hx.
      exact (date_compare_lt_trans _ _ _ E (F x Hx)).
    + apply date_compare_gt_lt in E.
      destruct (date_eqb_lt _ _ E) as [_ ->].
      rewrite IH.
      destruct (date_eqb d' d) eqn:E1; [|reflexivity].
      apply date_eqb_eq in E1. subst d'.
      now destruct (date_eqb_lt _ _ E) as [_ ->].
Qed.

Lemma group_values_groupby d df :
  group_values d (groupby_date df) = values_on d df.
Proof.
  unfold values_on. induction df as [|x df IH]; cbn [groupby_date List.filter]; [reflexivity|].
  rewrite group_values_insert by apply groupby_date_sorted.
  destruct (date_eqb d (row_date x)) eqn:E; cbn [List.map]; [|exact IH].
  apply date_eqb_eq in E. rewrite <- E. f_equal. exact IH.
Qed.

Lemma group_values_in d vs g :
  StronglySorted date_lt g -> In (d, vs) g -> group_values d g = vs.
Proof.
  induction 1 as [|[d0 vs0] rest Hs IH F]; intros Hin; [destruct Hin|].
  cbn [group_values]. destruct Hin as [E|Hin].
  - inversion E; subst. now rewrite date_eqb_refl.
  - rewrite List.Forall_forall in F. specialize (F _ Hin).
    unfold date_lt in F. cbn [fst] in F.
    destruct (date_eqb_lt _ _ F) as [_ ->]. now apply IH.
Qed.

Lemma group_values_nonempty d g :
  group_values d g <> [] -> In (d, group_values d g) g.
Proof.
  induction g as [|[d0 vs0] rest IH]; cbn [group_values]; [congruence|].
  destruct (date_eqb d d0) eqn:E.
  - apply date_eqb_eq in E. subst. now left.
  - intros H. right. now apply IH.
Qed.

Lemma groupby_date_nonempty_groups df d vs :
  In (d, vs) (groupby_date df) -> vs <> [].
Proof.
  revert d vs. induction df as [|x df IH]; cbn [groupby_date]; [intros ? ? []|].
  generalize (groupby_date df) IH. clear IH.
  induction l as [|[d0 vs0] rest IHl]; intros IH d vs; cbn [group_insert].
  - intros [E|[]]. inversion E. discriminate.
  - destruct (date_compare (row_date x) d0).
    + intros [E|H]; [inversion E; discriminate | eapply IH; right; exact H].
    + intros [E|H]; [inversion E; discriminate | eapply IH; exact H].
    + intros [E|H]; [inversion E; subst; eapply IH; left; reflexivity|].
      apply IHl in H; [exact H|]. intros d' vs' H'. eapply IH. right. exact H'.
Qed.

(** A group is the list of the values of its date, and there is a group
    for every date that occurs. *)
Lemma groupby_date_entries df d vs :
  In (d, vs) (groupby_date df) <-> vs = values_on d df /\ vs <> [].
Proof.
  split.
  - intros Hin. split; [|now apply groupby_date_nonempty_groups in Hin].
    rewrite <- group_values_groupby. symmetry.
    apply group_values_in; [apply groupby_date_sorted | exact Hin].
  - intros [-> Hne]. rewrite <- group_values_groupby in *.
    now apply group_values_nonempty.
Qed.

Lemma month_df_in df y m x :
  In x (month_df df y m) <-> In x df /\ in_month y m (row_date x) = true.
Proof. unfold month_df. now rewrite List.filter_In. Qed.


Lemma values_on_nonempty d df :
  values_on d df <> [] <-> exists x, In x df /\ row_date x = d.
Proof.
  unfold values_on. split.
  - intros H.
    destruct (List.filter (fun x => date_eqb d (row_date x)) df) as [|x l] eqn:E;
      [now cbn in H|].
    assert (Hx : In x (List.filter (fun x => date_eqb d (row_date x)) df))
      by (rewrite E; now left).
    apply List.filter_In in Hx. destruct Hx as [Hx Hd].
    apply date_eqb_eq in Hd. now exists x.
  - intros (x & Hx & Hd) H.
    assert (Hin : In x (List.filter (fun x => date_eqb d (row_date x)) df)).
    { apply List.filter_In. split; [exact Hx|]. now apply date_eqb_eq. }
    apply (in_map row_aqi) in Hin. rewrite H in Hin. destruct Hin.
Qed.


Lemma groupby_date_mean_entries df d a :
  In (d, a) (groupby_date_mean df)
  <-> (exists x, In x df /\ row_date x = d) /\ a = mean (values_on d df).
Proof.
  unfold groupby_date_mean. rewrite in_map_iff, <- values_on_nonempty. split.
  - intros ([d' vs] & E & Hin). cbn [fst snd] in E. inversion E; subst.
    apply groupby_date_entries in Hin. destruct Hin as [-> Hne]. now split.
  - intros [Hne ->]. exists (d, values_on d df). split; [reflexivity|].
    now apply groupby_date_entries.
Qed.



(* ===================================================================== *)
(** * Latest reading per ZIP, best and worst ZIP *)
(* ===================================================================== *)

Lemma ts_compare_refl t : ts_compare t t = Eq.
Proof. unfold ts_compare. now rewrite date_compare_refl, Z.compare_refl. Qed.

Lemma ts_leb_refl t : ts_leb t t = true.
Proof. unfold ts_leb. now rewrite ts_compare_refl. Qed.

Lemma ts_compare_antisym a b : ts_compare b a = CompOpp (ts_compare a b).
Proof.
  unfold ts_compare.
  destruct (date_compare (ts_date a) (ts_date b)) eqn:E.
  - apply date_compare_eq in E. rewrite E, date_compare_refl. apply Z.compare_antisym.
  - apply date_compare_gt_lt in E. now rewrite E.
  - apply date_compare_gt_lt in E. now rewrite E.
Qed.

Lemma ts_ltb_false_leb a b : ts_ltb a b = false -> ts_leb b a = true.
Proof.
  unfold ts_ltb, ts_leb. rewrite (ts_compare_antisym a b).
  destruct (ts_compare a b); cbn; congruence.
Qed.

Lemma ts_ltb_leb a b : ts_ltb a b = true -> ts_leb a b = true /\ ts_leb b a = false.
Proof.
  unfold ts_ltb, ts_leb. rewrite (ts_compare_antisym a b).
  destruct (ts_compare a b); cbn; split; congruence.
Qed.

Lemma ts_leb_trans a b c :
  ts_leb a b = true -> ts_leb b c = true -> ts_leb a c = true.
Proof.
  unfold ts_leb, ts_compare.
  destruct (date_compare (ts_date a) (ts_date b)) eqn:Eab;
    destruct (date_compare (ts_date b) (ts_date c)) eqn:Ebc;
    try discriminate.
  - apply date_compare_eq in Eab, Ebc. rewrite Eab, Ebc, date_compare_refl.
    destruct (Z.compare_spec (ts_hour a) (ts_hour b));
      destruct (Z.compare_spec (ts_hour b) (ts_hour c));
      destruct (Z.compare_spec (ts_hour a) (ts_hour c)); congruence || lia.
  - apply date_compare_eq in Eab. rewrite Eab, Ebc. reflexivity.
  - apply date_compare_eq in Ebc. rewrite <- Ebc, Eab. reflexivity.
  - rewrite (date_compare_lt_trans _ _ _ Eab Ebc). reflexivity.
Qed.

(** ** The insertion sort is an admissible [sort_values] *)

Lemma insert_by_ts_perm x l : Permutation (insert_by_ts x l) (x :: l).
Proof.
  induction l as [|y l IH]; cbn [insert_by_ts]; [reflexivity|].
  destruct (ts_ltb (row_ts x) (row_ts y)); [reflexivity|].
  rewrite IH. apply perm_swap.
Qed.

Lemma sort_by_ts_perm df : Permutation (sort_by_ts df) df.
Proof.
  induction df as [|x l IH]; cbn; [reflexivity|].
  rewrite insert_by_ts_perm. now constructor.
Qed.

Lemma insert_by_ts_sorted x l :
  StronglySorted ts_le l -> StronglySorted ts_le (insert_by_ts x l).
Proof.
  induction 1 as [|y l Hs IH F]; cbn [insert_by_ts].
  - repeat constructor.
  - rewrite List.Forall_forall in F.
    destruct (ts_ltb (row_ts x) (row_ts y)) eqn:E.
    + apply ts_ltb_leb in E. destruct E as [E _].
      constructor; [constructor; [exact Hs | now rewrite List.Forall_forall]|].
      constructor; [exact E|].
      rewrite List.Forall_forall. intros z Hz.
      exact (ts_leb_trans _ _ _ E (F z Hz)).
    + constructor; [exact IH|].
      rewrite List.Forall_forall. intros z Hz.
      apply (Permutation_in _ (insert_by_ts_perm x l)) in Hz.
      destruct Hz as [<-|Hz]; [now apply ts_ltb_false_leb | now apply F].
Qed.

Lemma sort_by_ts_sorted df : StronglySorted ts_le (sort_by_ts df).
Proof.
  induction df as [|x l IH]; cbn; [constructor|].
  now apply insert_by_ts_sorted.
Qed.

(** ** [groupby(...).tail(1)] *)

Lemma existsb_same_key (key : nat * Row -> string) x l :
  existsb (fun y => String.eqb (key y) (key x)) l = true
  <-> exists y, In y l /\ key y = key x.
Proof.
  rewrite existsb_exists. split; intros (y & Hy & E); exists y; split; trivial;
    now apply String.eqb_eq.
Qed.

Lemma groupby_tail1_in key l x : In x (groupby_tail1 key l) -> In x l.
Proof.
  induction l as [|a l IH]; cbn [groupby_tail1]; [tauto|].
  destruct (existsb _ l); [intros H; right; now apply IH|].
  intros [<-|H]; [now left | right; now apply IH].
Qed.

Lemma groupby_tail1_covers key l :
  forall x, In x l -> exists y, In y (groupby_tail1 key l) /\ key y = key x.
Proof.
  induction l as [|a l IH]; cbn [groupby_tail1]; [intros ? []|].
  destruct (existsb (fun y => String.eqb (key y) (key a)) l) eqn:E; intros x.
  - intros [<-|H]; [|now apply IH].
    apply existsb_same_key in E. destruct E as (y & Hy & Ey).
    destruct (IH y Hy) as (z & Hz & Ez). exists z. split; [exact Hz | congruence].
  - intros [<-|H]; [exists a; split; [now left | reflexivity]|].
    destruct (IH x H) as (z & Hz & Ez). exists z. split; [now right | exact Ez].
Qed.

Lemma groupby_tail1_one_per_key key l :
  List.NoDup (List.map key (groupby_tail1 key l)).
Proof.
  induction l as [|a l IH]; cbn [groupby_tail1]; [constructor|].
  destruct (existsb (fun y => String.eqb (key y) (key a)) l) eqn:E; [exact IH|].
  cbn [List.map]. constructor; [|exact IH].
  intros Hin. apply in_map_iff in Hin. destruct Hin as (y & Ey & Hy).
  apply groupby_tail1_in in Hy.
  assert (Hex : existsb (fun y => String.eqb (key y) (key a)) l = true)
    by (apply existsb_same_key; now exists y).
  congruence.
Qed.

Lemma groupby_tail1_latest key l :
  StronglySorted ts_le l ->
  forall x, In x (groupby_tail1 key l) ->
  forall y, In y l -> key y = key x -> ts_le y x.
Proof.
  induction 1 as [|a l Hs IH F]; cbn [groupby_tail1]; [intros ? []|].
  rewrite List.Forall_forall in F.
  destruct (existsb (fun y => String.eqb (key y) (key a)) l) eqn:E.
  - intros x Hx y [<-|Hy] Ekey.
    + apply F. now apply groupby_tail1_in in Hx.
    + now apply (IH x Hx).
  - intros x [<-|Hx] y [<-|Hy] Ekey.
    + apply ts_leb_refl.
    + assert (Hex : existsb (fun y => String.eqb (key y) (key a)) l = true)
        by (apply existsb_same_key; now exists y).
      congruence.
    + apply F. now apply groupby_tail1_in in Hx.
    + now apply (IH x Hx).
Qed.


(** ** [idxmin], [idxmax] and [loc] *)







(** The frames the script builds have unique labels. *)
Lemma range_index_labels start rows :
  labels (range_index start rows) = seq start (length rows).
Proof.
  revert start. induction rows as [|r rows IH]; intros start; cbn; [reflexivity|].
  f_equal. apply IH.
Qed.

Lemma fetchdf_labels rows : List.NoDup (labels (fetchdf rows)).
Proof. unfold fetchdf. rewrite range_index_labels. apply seq_NoDup. Qed.

Lemma filter_labels (p : nat * Row -> bool) (df : DataFrame) :
  List.NoDup (labels df) -> List.NoDup (labels (List.filter p df)).
Proof.
  unfold labels. induction df as [|a df IH]; cbn [List.filter List.map]; [trivial|].
  intros Hnd. inversion Hnd as [|? ? Hnotin Hnd']; subst.
  destruct (p a); [|now apply IH].
  cbn [List.map]. constructor; [|now apply IH].
  intros Hin. apply Hnotin. apply in_map_iff in Hin.
  destruct Hin as (y & Ey & Hy). apply in_map_iff. exists y.
  split; [exact Ey|]. now apply List.filter_In in Hy.
Qed.

Lemma filtered_df_labels rows zips start_dt end_dt :
  List.NoDup (labels (filtered_df (fetchdf rows) zips start_dt end_dt)).
Proof. apply filter_labels, fetchdf_labels. Qed.

Section BestWorst.

Variable sort_values : DataFrame -> DataFrame.
Hypothesis sort_values_perm : forall df, Permutation (sort_values df) df.
Hypothesis sort_values_sorted : forall df, StronglySorted ts_le (sort_values df).








End BestWorst.


Example summary_two_zips :
  exists s, summary_metrics sort_by_ts two_zips = Shown s
    /\ best_zip s = ("A", 30%Q) /\ worst_zip s = ("B", 90%Q)
    /\ avg_aqi s = 60%Q /\ total_observations s = 2%nat.
Proof. eexists. split; [reflexivity|]. repeat split. Qed.

(* ===================================================================== *)
(** * Good and unhealthy day percentages *)
(* ===================================================================== *)

Lemma count_days_disjoint (p q : Q -> bool) (daily : list (Date * Q)) :
  (forall a, p a = true -> q a = false) ->
  (count_days p daily + count_days q daily <= length daily)%nat.
Proof.
  intros Hpq. unfold count_days.
  induction daily as [|[d a] daily IH]; cbn [List.filter length snd]; [lia|].
  destruct (p a) eqn:Ep.
  - rewrite (Hpq a Ep). cbn [length]. lia.
  - destruct (q a); cbn [length]; lia.
Qed.

Lemma good_not_unhealthy a : Qle_bool a 50 = true -> Qle_bool 101 a = false.
Proof.
  intros H. apply Qle_bool_iff in H. apply Qle_bool_false. lra.
Qed.

Lemma exact_shares (g u t : nat) :
  (g + u <= t)%nat -> (0 < t)%nat ->
  (100 * inject_Z (Z.of_nat g) / inject_Z (Z.of_nat t)
   + 100 * inject_Z (Z.of_nat u) / inject_Z (Z.of_nat t) <= 100)%Q.
Proof.
  intros Hsum Ht.
  assert (HT : (0 < inject_Z (Z.of_nat t))%Q).
  { change 0%Q with (inject_Z 0). rewrite <- Zlt_Qlt. lia. }
  assert (HGU : (inject_Z (Z.of_nat g) + inject_Z (Z.of_nat u)
                 <= inject_Z (Z.of_nat t))%Q).
  { rewrite <- inject_Z_plus, <- Zle_Qle. lia. }
  set (G := inject_Z (Z.of_nat g)) in *. set (U := inject_Z (Z.of_nat u)) in *.
  set (T := inject_Z (Z.of_nat t)) in *.
  assert (Hdiv : ((G + U) / T <= 1)%Q).
  { apply Qle_shift_div_r; [exact HT | lra]. }
  unfold Qdiv in *.
  assert (E : (100 * G * / T + 100 * U * / T == 100 * ((G + U) * / T))%Q) by ring.
  rewrite E. lra.
Qed.

(** C9, as the code has it.  In every summary no date counts both as good
    and as unhealthy: good days plus unhealthy days never exceed the
    distinct dates, so the exact shares add up to at most 100 percent.
    Each displayed percentage is that share computed and rounded to one
    decimal on its own in binary64, and is 0 when there is no date; nothing
    bounds the sum of the two rounded values by 100. *)
Theorem day_percentages sort_values (df : DataFrame) (s : Summary) :
  summary_metrics sort_values df = Shown s ->
  (good_days s + unhealthy_days s <= total_days s)%nat
  /\ pct_good_days s = pct (good_days s) (total_days s)
  /\ pct_unhealthy_days s = pct (unhealthy_days s) (total_days s)
  /\ (total_days s = 0%nat ->
        pct_good_days s = 0%float /\ pct_unhealthy_days s = 0%float)
  /\ ((0 < total_days s)%nat ->
        (100 * inject_Z (Z.of_nat (good_days s)) / inject_Z (Z.of_nat (total_days s))
         + 100 * inject_Z (Z.of_nat (unhealthy_days s))
             / inject_Z (Z.of_nat (total_days s)) <= 100)%Q).
Proof.
  unfold summary_metrics.
  destruct (empty df); [discriminate|].
  destruct (best_row sort_values df); [|discriminate].
  destruct (worst_row sort_values df); [|discriminate].
  intros E. inversion E; subst s; clear E.
  cbn [good_days unhealthy_days total_days pct_good_days pct_unhealthy_days].
  pose proof (count_days_disjoint (fun a => Qle_bool a 50) (fun a => Qle_bool 101 a)
                (daily_aqi df) good_not_unhealthy) as Hsum.
  split; [exact Hsum|]. split; [reflexivity|]. split; [reflexivity|]. split.
  - intros ->. split; reflexivity.
  - intros Ht. now apply exact_shares.
Qed.

Lemma day_percentages_witness :
  (good_days two_zips_summary + unhealthy_days two_zips_summary
   <= total_days two_zips_summary)%nat
  /\ pct_good_days two_zips_summary
     = pct (good_days two_zips_summary) (total_days two_zips_summary)
  /\ pct_unhealthy_days two_zips_summary
     = pct (unhealthy_days two_zips_summary) (total_days two_zips_summary)
  /\ (total_days two_zips_summary = 0%nat ->
        pct_good_days two_zips_summary = 0%float
        /\ pct_unhealthy_days two_zips_summary = 0%float)
  /\ ((0 < total_days two_zips_summary)%nat ->
        (100 * inject_Z (Z.of_nat (good_days two_zips_summary))
           / inject_Z (Z.of_nat (total_days two_zips_summary))
         + 100 * inject_Z (Z.of_nat (unhealthy_days two_zips_summary))
             / inject_Z (Z.of_nat (total_days two_zips_summary)) <= 100)%Q).
Proof.
  apply (day_percentages sort_by_ts two_zips two_zips_summary). reflexivity.
Defined.

(* 38.8 and 61.3 stand for the binary64 numbers nearest to them. *)
#[local] Set Warnings "-inexact-float".

(** C9 as stated fails: on eighty dates of which 31 are good and 49
    unhealthy the two percentages are 38.8 and 61.3, and their sum is above
    100, as binary64 numbers and as exact values. *)
Lemma rounded_percentages_exceed_100 :
  exists s,
    summary_metrics sort_by_ts eighty_days = Shown s
    /\ good_days s = 31%nat /\ unhealthy_days s = 49%nat /\ total_days s = 80%nat
    /\ pct_good_days s = 38.8%float
    /\ pct_unhealthy_days s = 61.3%float
    /\ PrimFloat.leb (PrimFloat.add (pct_good_days s) (pct_unhealthy_days s))
                     100%float = false
    /\ match float_value (pct_good_days s), float_value (pct_unhealthy_days s) with
       | Some g, Some u => (100 < g + u)%Q
       | _, _ => False
       end.
Proof.
  eexists. split; [vm_compute; reflexivity|].
  repeat split; vm_compute; reflexivity.
Qed.

(** The intermediate values of that computation: 49/80*100 is not 61.25
    but the next binary64 number above it, so it rounds up, while
    31/80*100 is exactly 38.75 and rounds to the even neighbour 38.8. *)
Example percentages_before_rounding :
  float_value (PrimFloat.mul (PrimFloat.div (float_of_nat 31) (float_of_nat 80)) 100%float)
  = Some (155 # 4)%Q
  /\ float_value (PrimFloat.mul (PrimFloat.div (float_of_nat 49) (float_of_nat 80)) 100%float)
     = Some (8620171161763841 # 140737488355328)%Q.
Proof. split; vm_compute; reflexivity. Qed.

(* ===================================================================== *)
(** * More on the snapshot cache *)
(* ===================================================================== *)

Lemma up_to_date_same_fs w1 w2 remote_rev :
  fs w1 = fs w2 -> up_to_date w1 remote_rev = up_to_date w2 remote_rev.
Proof. intros E. unfold up_to_date, local_rev. now rewrite E. Qed.

Lemma up_to_date_inv w remote_rev :
  up_to_date w remote_rev = true ->
  is_Some (fs w !! local_path) /\ local_rev w = Some remote_rev.
Proof.
  unfold up_to_date. intros H. apply andb_true_iff in H. destruct H as [H1 H2].
  apply bool_decide_eq_true in H1. apply bool_decide_eq_true in H2. now split.
Qed.

(** What a run that returns a frame leaves behind. *)
Lemma load_data_ok_inv db w df :
  fst (load_data db w) = Ok df ->
  exists remote_rev content rows,
    metadata w = Some remote_rev
    /\ fs (snd (load_data db w)) !! local_path = Some content
    /\ db content = Some rows
    /\ df = fetchdf rows
    /\ (plain remote_rev = true ->
          up_to_date (snd (load_data db w)) remote_rev = true).
Proof.
  destruct (metadata w) as [remote_rev|] eqn:Hmeta.
  2:{ unfold load_data, mbind, M_bind, files_get_metadata. rewrite Hmeta.
      cbn. discriminate. }
  rewrite (load_data_cases db w remote_rev Hmeta).
  assert (Hread : forall w0 d,
             fst (read_table db local_path w0) = Ok d ->
             exists content rows,
               fs w0 !! local_path = Some content /\ db content = Some rows
               /\ d = fetchdf rows).
  { intros w0 d. unfold read_table.
    destruct (fs w0 !! local_path) as [content|]; cbn; [|discriminate].
    destruct (db content) as [rows|] eqn:Hdb; cbn; [|discriminate].
    intros E. inversion E. now exists content, rows. }
  destruct (up_to_date w remote_rev) eqn:Hcur.
  - rewrite read_table_world. intros Hok.
    destruct (Hread _ _ Hok) as (content & rows & Hfile & Hdb & ->).
    exists remote_rev, content, rows. repeat split; try assumption.
    intros _. now rewrite (up_to_date_same_fs (after_metadata w) w).
  - destruct (download (after_metadata w)) as [content|] eqn:Hdl.
    + rewrite (download_fresh_delivered db remote_rev _ content Hdl).
      rewrite read_table_world. intros Hok.
      destruct (Hread _ _ Hok) as (content' & rows & Hfile & Hdb & ->).
      exists remote_rev, content', rows. repeat split; try assumption.
      intros Hplain. apply up_to_date_true with content'; [exact Hfile|].
      apply local_rev_plain_marker; [exact Hplain|]. cbn [fs].
      apply lookup_insert_eq.
    + rewrite download_fresh_broken by exact Hdl. cbn. discriminate.
Qed.

(** X1.  Loading is idempotent: when a run returns a frame and the remote
    revision has no blanks, the cache file on disk holds exactly the rows
    returned, and a further run against the same revision returns the same
    frame without a download call and without touching any file. *)
Theorem load_data_twice db w remote_rev df :
  metadata w = Some remote_rev ->
  plain remote_rev = true ->
  fst (load_data db w) = Ok df ->
  (exists content rows,
     fs (snd (load_data db w)) !! local_path = Some content
     /\ db content = Some rows /\ df = fetchdf rows)
  /\ forall w2,
       fs w2 = fs (snd (load_data db w)) ->
       metadata w2 = Some remote_rev ->
       fst (load_data db w2) = Ok df
       /\ download_calls (snd (load_data db w2)) = download_calls w2
       /\ fs (snd (load_data db w2)) = fs w2.
Proof.
  intros Hmeta Hplain Hok.
  destruct (load_data_ok_inv db w df Hok)
    as (rev' & content & rows & Hmeta' & Hfile & Hdb & -> & Hcur).
  assert (rev' = remote_rev) as -> by congruence.
  split; [now exists content, rows|].
  intros w2 Hfs Hmeta2.
  rewrite (load_data_cases db w2 remote_rev Hmeta2).
  rewrite (up_to_date_same_fs w2 (snd (load_data db w)) remote_rev Hfs).
  rewrite (Hcur Hplain), read_table_world.
  split; [|split; reflexivity].
  apply read_table_rows with content; [|exact Hdb].
  cbn [fs after_metadata]. now rewrite Hfs.
Qed.

Lemma load_data_twice_witness :
  (exists content rows,
     fs (snd (load_data sample_db world_stale)) !! local_path = Some content
     /\ sample_db content = Some rows /\ fetchdf new_rows = fetchdf rows)
  /\ forall w2,
       fs w2 = fs (snd (load_data sample_db world_stale)) ->
       metadata w2 = Some "fedcba9876543210" ->
       fst (load_data sample_db w2) = Ok (fetchdf new_rows)
       /\ download_calls (snd (load_data sample_db w2)) = download_calls w2
       /\ fs (snd (load_data sample_db w2)) = fs w2.
Proof.
  apply (load_data_twice sample_db world_stale "fedcba9876543210" (fetchdf new_rows));
    reflexivity.
Defined.

(** X2.  A broken download is retried: when the revision read from the
    marker is not the remote one (or there is no marker) and the download
    breaks, the cache is still stale afterwards, so the next run against
    that revision makes a download call again. *)
Theorem load_data_retries_after_failure db w remote_rev :
  metadata w = Some remote_rev ->
  local_rev w <> Some remote_rev ->
  download w = None ->
  up_to_date (snd (load_data db w)) remote_rev = false
  /\ forall w2,
       fs w2 = fs (snd (load_data db w)) ->
       metadata w2 = Some remote_rev ->
       download_calls (snd (load_data db w2)) = S (download_calls w2).
Proof.
  intros Hmeta Hrev Hdl.
  assert (Hstale : up_to_date w remote_rev = false).
  { apply up_to_date_false. right; right. exact Hrev. }
  assert (Hafter : fs (snd (load_data db w)) = <[local_path := ""]> (fs w)).
  { rewrite (load_data_cases db w remote_rev Hmeta), Hstale.
    now rewrite download_fresh_broken by exact Hdl. }
  assert (Hstill : up_to_date (snd (load_data db w)) remote_rev = false).
  { apply up_to_date_false. right; right.
    unfold local_rev in *. rewrite Hafter.
    rewrite lookup_insert_ne by exact local_path_neq_rev_path. exact Hrev. }
  split; [exact Hstill|].
  intros w2 Hfs Hmeta2.
  rewrite (load_data_cases db w2 remote_rev Hmeta2).
  rewrite (up_to_date_same_fs w2 _ remote_rev Hfs), Hstill.
  destruct (download (after_metadata w2)) as [content|] eqn:Hdl2.
  - rewrite (download_fresh_delivered db remote_rev _ content Hdl2).
    now rewrite read_table_world.
  - now rewrite download_fresh_broken by exact Hdl2.
Qed.

Lemma load_data_retries_after_failure_witness :
  up_to_date (snd (load_data sample_db world_broken_download)) "fedcba9876543210"
  = false
  /\ forall w2,
       fs w2 = fs (snd (load_data sample_db world_broken_download)) ->
       metadata w2 = Some "fedcba9876543210" ->
       download_calls (snd (load_data sample_db w2)) = S (download_calls w2).
Proof.
  apply (load_data_retries_after_failure sample_db world_broken_download
           "fedcba9876543210"); [reflexivity | vm_compute; discriminate | reflexivity].
Defined.

(** X3.  A broken download after the cache file was lost is not retried:
    when the marker already names the remote revision, only the cache file
    is missing and the download breaks, the empty file left behind counts
    as current, and the next run against that revision makes no download
    call and hands the empty file to DuckDB. *)
Theorem load_data_accepts_empty_file db w remote_rev :
  metadata w = Some remote_rev ->
  fs w !! local_path = None ->
  local_rev w = Some remote_rev ->
  download w = None ->
  fst (load_data db w) = Raise DownloadError
  /\ fs (snd (load_data db w)) !! local_path = Some ""
  /\ forall w2,
       fs w2 = fs (snd (load_data db w)) ->
       metadata w2 = Some remote_rev ->
       download_calls (snd (load_data db w2)) = download_calls w2
       /\ fst (load_data db w2)
          = match db "" with
            | Some rows => Ok (fetchdf rows)
            | None => Raise DatabaseError
            end.
Proof.
  intros Hmeta Hnofile Hrev Hdl.
  assert (Hstale : up_to_date w remote_rev = false).
  { apply up_to_date_false. now left. }
  assert (Hrun : load_data db w
                 = (Raise DownloadError,
                    mkWorld (<[local_path := ""]> (fs w)) (metadata w) (download w)
                            (S (metadata_calls w)) (S (download_calls w)))).
  { rewrite (load_data_cases db w remote_rev Hmeta), Hstale.
    now rewrite download_fresh_broken by exact Hdl. }
  rewrite Hrun. cbn [fst snd fs].
  split; [reflexivity|]. split; [apply lookup_insert_eq|].
  intros w2 Hfs Hmeta2.
  assert (Hfile2 : fs w2 !! local_path = Some "").
  { rewrite Hfs. apply lookup_insert_eq. }
  assert (Hcur : up_to_date w2 remote_rev = true).
  { apply up_to_date_true with ""; [exact Hfile2|].
    unfold local_rev in *. rewrite Hfs.
    rewrite lookup_insert_ne by exact local_path_neq_rev_path. exact Hrev. }
  rewrite (load_data_cases db w2 remote_rev Hmeta2), Hcur, read_table_world.
  split; [reflexivity|].
  unfold read_table. cbn [fs after_metadata]. rewrite Hfile2. cbn.
  now destruct (db "").
Qed.

Lemma load_data_accepts_empty_file_witness :
  fst (load_data sample_db world_lost_file) = Raise DownloadError
  /\ fs (snd (load_data sample_db world_lost_file)) !! local_path = Some ""
  /\ forall w2,
       fs w2 = fs (snd (load_data sample_db world_lost_file)) ->
       metadata w2 = Some "fedcba9876543210" ->
       download_calls (snd (load_data sample_db w2)) = download_calls w2
       /\ fst (load_data sample_db w2)
          = match sample_db "" with
            | Some rows => Ok (fetchdf rows)
            | None => Raise DatabaseError
            end.
Proof.
  apply (load_data_accepts_empty_file sample_db world_lost_file "fedcba9876543210");
    reflexivity.
Defined.

(** X4.  The footprint of a run, whatever the world: one metadata call, at
    most one download call, none when the metadata lookup fails; no file
    other than the cache file and the marker is written, and no file is
    removed. *)
Theorem load_data_footprint db w :
  metadata_calls (snd (load_data db w)) = S (metadata_calls w)
  /\ (download_calls w <= download_calls (snd (load_data db w))
      <= S (download_calls w))%nat
  /\ (metadata w = None ->
        download_calls (snd (load_data db w)) = download_calls w)
  /\ (forall path, path <> local_path -> path <> rev_path ->
        fs (snd (load_data db w)) !! path = fs w !! path)
  /\ (forall path, is_Some (fs w !! path) ->
        is_Some (fs (snd (load_data db w)) !! path)).
Proof.
  destruct (metadata w) as [remote_rev|] eqn:Hmeta.
  2:{ unfold load_data, mbind, M_bind, files_get_metadata. rewrite Hmeta. cbn.
      repeat split; auto; lia. }
  rewrite (load_data_cases db w remote_rev Hmeta).
  destruct (up_to_date w remote_rev).
  - rewrite read_table_world. cbn. repeat split; auto; try lia; try discriminate.
  - destruct (download (after_metadata w)) as [content|] eqn:Hdl.
    + rewrite (download_fresh_delivered db remote_rev _ content Hdl).
      rewrite read_table_world. cbn.
      repeat split; auto; try lia; try discriminate.
      * intros path H1 H2. now rewrite !lookup_insert_ne by congruence.
      * intros path Hsome.
        destruct (decide (path = rev_path)) as [->|H2];
          [rewrite lookup_insert_eq; eauto|].
        rewrite lookup_insert_ne by congruence.
        destruct (decide (path = local_path)) as [->|H1];
          [rewrite lookup_insert_eq; eauto|].
        now rewrite lookup_insert_ne by congruence.
    + rewrite download_fresh_broken by exact Hdl. cbn.
      repeat split; auto; try lia; try discriminate.
      * intros path H1 H2. now rewrite lookup_insert_ne by congruence.
      * intros path Hsome.
        destruct (decide (path = local_path)) as [->|H1];
          [rewrite lookup_insert_eq; eauto|].
        now rewrite lookup_insert_ne by congruence.
Qed.

(* ===================================================================== *)
(** * The options of the select boxes *)
(* ===================================================================== *)

Lemma unique_in {A} `{EqDecision A} (l : list A) x : In x (unique l) <-> In x l.
Proof.
  rewrite <- !list_elem_of_In.
  induction l as [|a l IH]; cbn [unique]; [reflexivity|].
  rewrite !elem_of_cons, list_elem_of_filter, IH.
  destruct (decide (x = a)); tauto.
Qed.

Lemma unique_nodup {A} `{EqDecision A} (l : list A) : List.NoDup (unique l).
Proof.
  apply NoDup_ListNoDup.
  induction l as [|a l IH]; cbn [unique]; [constructor|].
  apply NoDup_cons. split.
  - rewrite list_elem_of_filter. intros [Hne _]. now apply Hne.
  - now apply NoDup_filter.
Qed.

Lemma merge_sort_in {A} (R : relation A) `{!RelDecision R} (l : list A) x :
  In x (merge_sort R l) <-> In x l.
Proof.
  split; apply Permutation_in;
    [apply merge_sort_Permutation | symmetry; apply merge_sort_Permutation].
Qed.

Lemma merge_sort_nodup {A} (R : relation A) `{!RelDecision R} (l : list A) :
  List.NoDup l -> List.NoDup (merge_sort R l).
Proof.
  apply Permutation_NoDup. symmetry. apply merge_sort_Permutation.
Qed.

(** X5.  The ZIP codes offered by the ZIP filter are exactly the ZIP codes
    of the table, each once, in ascending string order. *)
Theorem zip_codes_spec (df : DataFrame) :
  StronglySorted String.le (zip_codes df)
  /\ List.NoDup (zip_codes df)
  /\ forall z, In z (zip_codes df) <-> exists x, In x df /\ row_zip x = z.
Proof.
  unfold zip_codes. split; [|split].
  - apply StronglySorted_merge_sort; apply _.
  - apply merge_sort_nodup, unique_nodup.
  - intros z. rewrite merge_sort_in, unique_in, in_map_iff.
    split; intros (x & H1 & H2); exists x; auto.
Qed.

Lemma year_month_pairs_in df p :
  In p (year_month_pairs df) <-> exists x, In x df /\ to_period x = p.
Proof.
  unfold year_month_pairs. rewrite merge_sort_in, unique_in, in_map_iff.
  split; intros (x & H1 & H2); exists x; auto.
Qed.

Lemma year_month_pairs_nodup df : List.NoDup (year_month_pairs df).
Proof. apply merge_sort_nodup, unique_nodup. Qed.

Lemma years_in df y :
  In y (years df) <-> exists x, In x df /\ year (row_date x) = y.
Proof.
  unfold years. rewrite merge_sort_in, <- list_elem_of_In, elem_of_elements,
    elem_of_list_to_set, list_elem_of_In, in_map_iff.
  split.
  - intros (p & <- & Hp). apply year_month_pairs_in in Hp.
    destruct Hp as (x & Hx & <-). now exists x.
  - intros (x & Hx & <-). exists (to_period x). split; [reflexivity|].
    apply year_month_pairs_in. now exists x.
Qed.

Lemma months_of_in pairs y m : In m (months_of pairs y) <-> In (y, m) pairs.
Proof.
  unfold months_of. rewrite merge_sort_in, in_map_iff. split.
  - intros ([y' m'] & <- & Hp). apply list_elem_of_In, list_elem_of_filter in Hp.
    destruct Hp as [E Hp]. cbn in E. subst y'. now apply list_elem_of_In.
  - intros Hp. exists (y, m). split; [reflexivity|].
    apply list_elem_of_In, list_elem_of_filter. split; [reflexivity|].
    now apply list_elem_of_In.
Qed.

Lemma months_of_nodup pairs y : List.NoDup pairs -> List.NoDup (months_of pairs y).
Proof.
  intros Hnd. apply merge_sort_nodup.
  apply NoDup_ListNoDup in Hnd. apply NoDup_ListNoDup.
  induction Hnd as [|[y' m'] l Hnotin Hnd IH]; [constructor|].
  rewrite filter_cons. cbn [fst]. destruct (decide (y' = y)) as [->|Hne]; [|exact IH].
  cbn [List.map snd]. apply NoDup_cons. split; [|exact IH].
  intros Hin. apply Hnotin. apply list_elem_of_In, in_map_iff in Hin.
  destruct Hin as ([y2 m2] & E & Hin). cbn in E. subst m2.
  apply list_elem_of_In, list_elem_of_filter in Hin. destruct Hin as [E Hin].
  cbn in E. now subst y2.
Qed.

Lemma foldl_insert_lookup (f : Z -> list Z) (ys : list Z) (d : gmap Z (list Z)) y :
  foldl (fun d year => <[year := f year]> d) d ys !! y
  = if decide (y ∈ ys) then Some (f y) else d !! y.
Proof.
  revert d. induction ys as [|a ys IH]; intros d; cbn [foldl].
  - destruct (decide (y ∈ [])) as [Hin|_]; [|reflexivity].
    now apply elem_of_nil in Hin.
  - rewrite IH.
    destruct (decide (y ∈ ys)) as [Hin|Hnotin].
    + destruct (decide (y ∈ a :: ys)) as [_|Hn]; [reflexivity|].
      exfalso. apply Hn. now right.
    + destruct (decide (y = a)) as [->|Hne].
      * rewrite lookup_insert_eq.
        destruct (decide (a ∈ a :: ys)) as [_|Hn]; [reflexivity|].
        exfalso. apply Hn. now left.
      * rewrite lookup_insert_ne by congruence.
        destruct (decide (y ∈ a :: ys)) as [Hin|_]; [|reflexivity].
        apply elem_of_cons in Hin. destruct Hin; [congruence | contradiction].
Qed.

Lemma months_lookup_lookup df y :
  months_lookup df !! y
  = if decide (y ∈ years df) then Some (months_of (year_month_pairs df) y)
    else None.
Proof. unfold months_lookup. now rewrite foldl_insert_lookup, lookup_empty. Qed.

(** X6.  The year and month options: the years are the years that occur in
    the table, ascending and without repeats; [months_lookup] has an entry
    for each of them and for no other key, and the entry of a year lists,
    ascending and without repeats, the months in which that year has a row,
    at least one. *)
Theorem months_lookup_spec (df : DataFrame) :
  StronglySorted Z.le (years df)
  /\ List.NoDup (years df)
  /\ (forall y, In y (years df) <-> exists x, In x df /\ year (row_date x) = y)
  /\ (forall y, In y (years df) ->
        exists ms,
          months_lookup df !! y = Some ms
          /\ ms <> []
          /\ StronglySorted Z.le ms
          /\ List.NoDup ms
          /\ forall m, In m ms <->
               exists x, In x df /\ year (row_date x) = y
                         /\ month (row_date x) = m)
  /\ (forall y, ~ In y (years df) -> months_lookup df !! y = None).
Proof.
  split; [|split; [|split; [|split]]].
  - apply StronglySorted_merge_sort; apply _.
  - apply merge_sort_nodup, NoDup_ListNoDup, NoDup_elements.
  - apply years_in.
  - intros y Hy. exists (months_of (year_month_pairs df) y).
    assert (Hmem : forall m, In m (months_of (year_month_pairs df) y) <->
               exists x, In x df /\ year (row_date x) = y
                         /\ month (row_date x) = m).
    { intros m. rewrite months_of_in, year_month_pairs_in. unfold to_period.
      split.
      - intros (x & Hx & E). inversion E. now exists x.
      - intros (x & Hx & <- & <-). now exists x. }
    split; [|split; [|split; [|split]]].
    + rewrite months_lookup_lookup. apply list_elem_of_In in Hy.
      now destruct (decide (y ∈ years df)).
    + apply years_in in Hy. destruct Hy as (x & Hx & Hyear).
      intros E. assert (Hin : In (month (row_date x)) []).
      { rewrite <- E. apply Hmem. now exists x. }
      destruct Hin.
    + apply StronglySorted_merge_sort; apply _.
    + apply months_of_nodup, year_month_pairs_nodup.
    + exact Hmem.
  - intros y Hy. rewrite months_lookup_lookup.
    destruct (decide (y ∈ years df)) as [Hin|_]; [|reflexivity].
    now apply list_elem_of_In in Hin.
Qed.

Lemma month_name_num m : month_name (month_num m) = Some m.
Proof. now destruct m. Qed.

Lemma month_name_inv z m : month_name z = Some m -> month_num m = z.
Proof.
  unfold month_name.
  destruct z as [|p|p]; try discriminate.
  do 4 (try destruct p as [p|p|]); try discriminate;
    intros E; inversion E; reflexivity.
Qed.

Lemma valid_date_inv d :
  valid_date d = true ->
  exists m, month_name (month d) = Some m
            /\ (1 <= day d <= days_in_month (year d) m)%Z.
Proof.
  unfold valid_date. destruct (month_name (month d)) as [m|]; [|discriminate].
  intros H. apply andb_true_iff in H. destruct H as [H1 H2].
  exists m. split; [reflexivity|]. lia.
Qed.

Lemma all_valid_in df x :
  forallb (fun x => valid_date (row_date x)) df = true -> In x df ->
  valid_date (row_date x) = true.
Proof. intros H Hx. rewrite forallb_forall in H. now apply H. Qed.

(** A row of the calendar month is kept by the monthly filter. *)
Lemma valid_row_in_month x y m :
  valid_date (row_date x) = true ->
  year (row_date x) = y -> month (row_date x) = month_num m ->
  in_month y m (row_date x) = true.
Proof.
  intros Hvalid Hy Hm. apply in_month_spec.
  destruct (valid_date_inv _ Hvalid) as (m' & Hname & Hday).
  rewrite Hm, month_name_num in Hname. inversion Hname; subst m'.
  rewrite Hy in Hday. auto.
Qed.

Lemma months_lookup_inv df y ms :
  months_lookup df !! y = Some ms ->
  ms = months_of (year_month_pairs df) y
  /\ forall z, In z ms ->
       exists x, In x df /\ year (row_date x) = y /\ month (row_date x) = z.
Proof.
  rewrite months_lookup_lookup.
  destruct (decide (y ∈ years df)); [|discriminate].
  intros E. inversion E; subst ms. split; [reflexivity|].
  intros z Hz. apply months_of_in, year_month_pairs_in in Hz.
  destruct Hz as (x & Hx & Eq). unfold to_period in Eq. inversion Eq.
  now exists x.
Qed.

Lemma month_names_back ms opts :
  Forall2 (fun z o => month_name z = Some o) ms opts ->
  List.map month_num opts = ms.
Proof.
  induction 1 as [|z o ms opts Hzo _ IH]; [reflexivity|].
  cbn [List.map]. now rewrite IH, (month_name_inv z o Hzo).
Qed.

(** X7.  On a table of calendar dates the month select boxes never fail:
    every year offered has a month list in [months_lookup], every month in
    it has a name, the options are not empty and name exactly the months of
    the list. *)
Theorem month_options_exist (df : DataFrame) (y : Z) :
  forallb (fun x => valid_date (row_date x)) df = true ->
  In y (years df) ->
  exists opts,
    month_options df y = Some opts
    /\ opts <> []
    /\ months_lookup df !! y = Some (List.map month_num opts).
Proof.
  intros Hvalid Hy. unfold month_options.
  assert (Hlook : months_lookup df !! y = Some (months_of (year_month_pairs df) y)).
  { rewrite months_lookup_lookup. apply list_elem_of_In in Hy.
    now destruct (decide (y ∈ years df)). }
  destruct (months_lookup_inv df y _ Hlook) as [_ Hrows].
  rewrite Hlook. cbn [mbind option_bind].
  set (ms := months_of (year_month_pairs df) y) in *.
  assert (Hsome : is_Some (mapM month_name ms)).
  { apply mapM_is_Some, Forall_forall. intros z Hz.
    apply list_elem_of_In, Hrows in Hz. destruct Hz as (x & Hx & _ & <-).
    destruct (valid_date_inv _ (all_valid_in df x Hvalid Hx)) as (m & Hm & _).
    cbn. rewrite Hm. eauto. }
  destruct Hsome as [opts Hopts]. exists opts.
  pose proof (proj1 (mapM_Some _ _ _) Hopts) as Hall.
  split; [exact Hopts|]. split.
  - intros ->. apply Forall2_nil_inv_r in Hall.
    apply years_in in Hy. destruct Hy as (x & Hx & Hyear).
    assert (Hin : In (month (row_date x)) ms).
    { apply months_of_in, year_month_pairs_in. exists x. split; [exact Hx|].
      unfold to_period. now rewrite Hyear. }
    rewrite Hall in Hin. destruct Hin.
  - now rewrite (month_names_back ms opts Hall).
Qed.

Lemma month_options_exist_witness :
  exists opts,
    month_options two_sensors 2024 = Some opts
    /\ opts <> []
    /\ months_lookup two_sensors !! 2024%Z = Some (List.map month_num opts).
Proof.
  apply (month_options_exist two_sensors 2024); [reflexivity|].
  vm_compute. now left.
Defined.

(** X8.  A month picked from the options of the trend tab always has data:
    for a table of calendar dates, a year and a month name offered for that
    year, the monthly frame is not empty, so the chart is drawn with at
    least one point and the "no data for this month" warning is not
    shown. *)
Theorem offered_month_has_data (df : DataFrame) (y : Z) (opts : list Month) (m : Month) :
  forallb (fun x => valid_date (row_date x)) df = true ->
  month_options df y = Some opts ->
  In m opts ->
  exists series, daily_avg df y m = Shown series /\ series <> [].
Proof.
  intros Hvalid Hopts Hm. unfold month_options in Hopts.
  destruct (months_lookup df !! y) as [ms|] eqn:Hlook; [|discriminate].
  cbn [mbind option_bind] in Hopts.
  destruct (months_lookup_inv df y ms Hlook) as [_ Hrows].
  apply mapM_Some in Hopts.
  assert (Hz : exists z, In z ms /\ month_name z = Some m).
  { apply list_elem_of_In, list_elem_of_lookup in Hm. destruct Hm as [i Hi].
    destruct (Forall2_lookup_r _ _ _ _ _ Hopts Hi) as (z & Hzi & Hname).
    exists z. split; [|exact Hname].
    apply list_elem_of_In, list_elem_of_lookup. now exists i. }
  destruct Hz as (z & Hz & Hname).
  destruct (Hrows z Hz) as (x & Hx & Hyear & Hmonth).
  apply month_name_inv in Hname.
  assert (Hin : In x (month_df df y m)).
  { apply month_df_in. split; [exact Hx|].
    apply valid_row_in_month; [now apply (all_valid_in df) | exact Hyear | congruence]. }
  unfold daily_avg.
  destruct (month_df df y m) as [|r rest] eqn:E; [destruct Hin|].
  cbn [empty]. eexists. split; [reflexivity|].
  intros Hnil.
  assert (Hentry : In (row_date x, mean (values_on (row_date x) (r :: rest)))
                      (groupby_date_mean (r :: rest))).
  { apply groupby_date_mean_entries. split; [|reflexivity]. now exists x. }
  rewrite Hnil in Hentry. destruct Hentry.
Qed.

Lemma offered_month_has_data_witness :
  exists series, daily_avg two_sensors 2024 February = Shown series /\ series <> [].
Proof.
  apply (offered_month_has_data two_sensors 2024 [January; February] February);
    [reflexivity | reflexivity | right; now left].
Defined.

(** X9.  On calendar dates the monthly filter is the calendar month: a row
    with a valid date is kept for (year, month) exactly when it is a row of
    the table with that year and that month. *)
Theorem month_df_calendar_month (df : DataFrame) (y : Z) (m : Month) (x : nat * Row) :
  valid_date (row_date x) = true ->
  (In x (month_df df y m)
   <-> In x df /\ year (row_date x) = y /\ month (row_date x) = month_num m).
Proof.
  intros Hvalid. rewrite month_df_in. split.
  - intros [Hx Hin]. apply in_month_spec in Hin. tauto.
  - intros (Hx & Hy & Hm). split; [exact Hx|]. now apply valid_row_in_month.
Qed.

Lemma month_df_calendar_month_witness :
  In (last_day_row 5) (month_df [last_day_row 5] 2024 January)
  <-> In (last_day_row 5) [last_day_row 5]
      /\ year (row_date (last_day_row 5)) = 2024%Z
      /\ month (row_date (last_day_row 5)) = month_num January.
Proof.
  apply (month_df_calendar_month [last_day_row 5] 2024 January (last_day_row 5)).
  reflexivity.
Defined.

(** X10.  The upper bound of the global filter is midnight of the last day
    of the end month: of the selected rows of that day only those of hour
    0 pass the filter, the readings of any later hour are left out. *)
Theorem last_day_kept_at_midnight_only (df : DataFrame) (zips : list string)
    (ys : Z) (ms : Month) (ye : Z) (me : Month) (x : nat * Row) :
  In x df ->
  isin (row_zip x) zips = true ->
  ts_leb (start_dt ys ms) (row_ts x) = true ->
  row_date x = end_month_dt ye me ->
  (In x (filtered_df df zips (start_dt ys ms) (end_dt ye me))
   <-> (ts_hour (row_ts x) <= 0)%Z).
Proof.
  intros Hx Hzip Hstart Hdate. unfold filtered_df.
  rewrite List.filter_In, Hzip, Hstart. cbn [andb].
  unfold ts_leb, ts_compare, end_dt. cbn [ts_date ts_hour].
  unfold row_date in Hdate. unfold row_ts. rewrite Hdate, date_compare_refl.
  destruct (Z.compare_spec (ts_hour (Hour_Timestamp (snd x))) 0);
    split; intros; try lia; try tauto; destruct H0; discriminate.
Qed.

Lemma last_day_kept_at_midnight_only_witness :
  In (last_day_row 5)
     (filtered_df [last_day_row 5] ["A"] (start_dt 2024 January) (end_dt 2024 January))
  <-> (ts_hour (row_ts (last_day_row 5)) <= 0)%Z.
Proof.
  apply (last_day_kept_at_midnight_only [last_day_row 5] ["A"] 2024 January 2024 January
           (last_day_row 5)); try reflexivity. now left.
Defined.

(** The 05:00 reading of 31 January 2024 is not in the frame filtered to
    January 2024. *)
Example last_day_afternoon_dropped :
  filtered_df [last_day_row 0; last_day_row 5] ["A"]
              (start_dt 2024 January) (end_dt 2024 January)
  = [last_day_row 0].
Proof. reflexivity. Qed.

(* ===================================================================== *)
(** * The map frame and the summary counts *)
(* ===================================================================== *)


Lemma group_insert_length d v g :
  (length g <= length (group_insert d v g) <= S (length g))%nat
  /\ group_insert d v g <> [].
Proof.
  induction g as [|[d0 vs] rest [IH _]]; cbn [group_insert].
  - split; [cbn; lia | discriminate].
  - destruct (date_compare d d0); cbn [length]; split; try lia; discriminate.
Qed.

Lemma groupby_date_length df :
  (length (groupby_date df) <= length df)%nat
  /\ (df <> [] -> groupby_date df <> []).
Proof.
  induction df as [|x df [IH _]]; cbn [groupby_date length].
  - split; [lia | congruence].
  - destruct (group_insert_length (row_date x) (row_aqi x) (groupby_date df))
      as [Hlen Hne].
    split; [lia | intros _; exact Hne].
Qed.

Lemma count_days_le p daily : (count_days p daily <= length daily)%nat.
Proof. unfold count_days. apply List.filter_length_le. Qed.

(** X11.  The counts of a summary: the total of readings is the number of
    rows; there is at least one distinct date and at most as many dates as
    rows, so the guard against a division by zero in the percentages is
    never the branch taken; good days and unhealthy days are each at most
    the distinct dates. *)
Theorem summary_counts sort_values (df : DataFrame) (s : Summary) :
  summary_metrics sort_values df = Shown s ->
  total_observations s = length df
  /\ (1 <= total_days s <= length df)%nat
  /\ (good_days s <= total_days s)%nat
  /\ (unhealthy_days s <= total_days s)%nat.
Proof.
  unfold summary_metrics.
  destruct df as [|x df]; [discriminate|]. cbn [empty].
  destruct (best_row sort_values (x :: df)); [|discriminate].
  destruct (worst_row sort_values (x :: df)); [|discriminate].
  intros E. inversion E; subst s; clear E.
  cbn [total_observations total_days good_days unhealthy_days].
  unfold daily_aqi, groupby_date_mean. rewrite List.length_map.
  destruct (groupby_date_length (x :: df)) as [Hle Hne].
  split; [reflexivity|]. split.
  - split; [|exact Hle].
    destruct (groupby_date (x :: df)); [now destruct Hne | cbn; lia].
  - rewrite <- (List.length_map (fun g => (fst g, mean (snd g)))).
    split; apply count_days_le.
Qed.

Lemma summary_counts_witness :
  total_observations two_zips_summary = length two_zips
  /\ (1 <= total_days two_zips_summary <= length two_zips)%nat
  /\ (good_days two_zips_summary <= total_days two_zips_summary)%nat
  /\ (unhealthy_days two_zips_summary <= total_days two_zips_summary)%nat.
Proof.
  apply (summary_counts sort_by_ts two_zips two_zips_summary). reflexivity.
Defined.

Section MapAndRanking.

Variable sort_values : DataFrame -> DataFrame.
Hypothesis sort_values_perm : forall df, Permutation (sort_values df) df.
Hypothesis sort_values_sorted : forall df, StronglySorted ts_le (sort_values df).

(** X12.  The frame behind the map holds, for a non-empty table, exactly
    one row for every sensor of the table, and that row is a row of the
    table with the greatest timestamp of its sensor. *)
Theorem latest_locations_spec (df : DataFrame) :
  df <> [] ->
  exists located,
    latest_locations sort_values df = Shown located
    /\ (forall x, In x located ->
          In x df
          /\ forall y, In y df -> row_sensor y = row_sensor x ->
               ts_leb (row_ts y) (row_ts x) = true)
    /\ List.NoDup (List.map row_sensor located)
    /\ (forall y, In y df ->
          exists x, In x located /\ row_sensor x = row_sensor y).
Proof.
  intros Hne. exists (groupby_tail1 row_sensor (sort_values df)).
  split; [|split; [|split]].
  - unfold latest_locations. destruct df; [congruence | reflexivity].
  - intros x Hx. split.
    + apply (Permutation_in _ (sort_values_perm df)).
      now apply groupby_tail1_in in Hx.
    + intros y Hy Ekey.
      apply (groupby_tail1_latest row_sensor _ (sort_values_sorted df) x Hx y);
        [|exact Ekey].
      apply (Permutation_in _ (Permutation_sym (sort_values_perm df))). exact Hy.
  - apply groupby_tail1_one_per_key.
  - intros y Hy. apply groupby_tail1_covers.
    apply (Permutation_in _ (Permutation_sym (sort_values_perm df))). exact Hy.
Qed.


End MapAndRanking.

Lemma latest_locations_spec_witness :
  exists located,
    latest_locations sort_by_ts two_sensors = Shown located
    /\ (forall x, In x located ->
          In x two_sensors
          /\ forall y, In y two_sensors -> row_sensor y = row_sensor x ->
               ts_leb (row_ts y) (row_ts x) = true)
    /\ List.NoDup (List.map row_sensor located)
    /\ (forall y, In y two_sensors ->
          exists x, In x located /\ row_sensor x = row_sensor y).
Proof.
  apply (latest_locations_spec sort_by_ts sort_by_ts_perm sort_by_ts_sorted two_sensors).
  discriminate.
Defined.


(** The map frame of the two-sensor sample: the February rows. *)
Example latest_locations_two_sensors :
  latest_locations sort_by_ts two_sensors
  = Shown [(3%nat, reading "s2" "A" (mkDate 2024 2 16) 7 55);
           (2%nat, reading "s1" "A" (mkDate 2024 2 16) 9 60)].
Proof. reflexivity. Qed.

(* ===================================================================== *)
(** * Highest and lowest day of the monthly trend *)
(* ===================================================================== *)




Local Open Scope list_scope.








(* ===================================================================== *)
(** * More on the categories *)
(* ===================================================================== *)

Ltac bands :=
  unfold categorize_aqi, num_le;
  repeat match goal with
    | |- context [if Qle_bool ?a ?b then _ else _] =>
        let H := fresh "H" in destruct (Qle_bool a b) eqn:H
    end;
  repeat match goal with
    | H : Qle_bool _ _ = true |- _ => apply Qle_bool_iff in H
    | H : Qle_bool _ _ = false |- _ => apply Qle_bool_false in H
    end.

(** X15.  [categorize_aqi] preserves the order: a reading that is not
    lower never lands in a lower category of [category_order]. *)
Theorem categorize_aqi_monotone (x y : Q) :
  (x <= y)%Q ->
  (category_code (categorize_aqi (Finite x))
   <= category_code (categorize_aqi (Finite y)))%nat.
Proof.
  intros Hxy. bands; first [ vm_compute; lia | exfalso; lra ].
Qed.

Lemma categorize_aqi_monotone_witness :
  (category_code (categorize_aqi (Finite 40))
   <= category_code (categorize_aqi (Finite 120)))%nat.
Proof.
  apply (categorize_aqi_monotone 40 120). vm_compute. discriminate.
Defined.

(** X16.  The pie chart never misses a colour or a rank: whatever
    [categorize_aqi] returns is listed in [category_order] and has an entry
    in [color_map], different categories have different names and
    different colours, and [color_map] has no key beyond the six names. *)
Theorem every_category_has_colour :
  (forall x : number,
     In (categorize_aqi x) category_order
     /\ is_Some (color_map !! category_name (categorize_aqi x)))
  /\ (forall a b : Category,
        a <> b ->
        category_name a <> category_name b
        /\ color_map !! category_name a <> color_map !! category_name b)
  /\ (forall key : string,
        is_Some (color_map !! key) -> exists c, key = category_name c).
Proof.
  split; [|split].
  - intros x. destruct (categorize_aqi x); split;
      solve [cbn; tauto | vm_compute; eauto].
  - intros a b Hab. destruct a, b; try congruence; split; vm_compute; discriminate.
  - intros key [v Hv]. unfold color_map in Hv.
    apply elem_of_list_to_map_2 in Hv. rewrite !elem_of_cons in Hv.
    destruct Hv as [E|[E|[E|[E|[E|[E|E]]]]]];
      [exists Good | exists Moderate | exists UnhealthySensitive
       | exists Unhealthy | exists VeryUnhealthy | exists Hazardous
       | now apply elem_of_nil in E];
      now inversion E.
Qed.

(* ===================================================================== *)
(** * Selections that leave no row *)
(* ===================================================================== *)

Lemma filtered_df_in df zips start_ts end_ts x :
  In x (filtered_df df zips start_ts end_ts)
  <-> In x df /\ isin (row_zip x) zips = true
      /\ ts_leb start_ts (row_ts x) = true /\ ts_leb (row_ts x) end_ts = true.
Proof.
  unfold filtered_df. rewrite List.filter_In, !andb_true_iff. tauto.
Qed.

Lemma no_row_is_empty (df : DataFrame) : (forall x, ~ In x df) -> df = [].
Proof.
  destruct df as [|x df]; [reflexivity|]. intros H. destruct (H x). now left.
Qed.

(** X17.  With no ZIP code selected, or with a start month after the end
    month, the filtered frame is empty, and the summary, the category
    chart and the map each show the "no data" warning instead of
    failing. *)
Theorem empty_selection_warns sort_values (df : DataFrame) (zips : list string)
    (ys : Z) (ms : Month) (ye : Z) (me : Month) :
  zips = [] \/ ts_leb (start_dt ys ms) (end_dt ye me) = false ->
  filtered_df df zips (start_dt ys ms) (end_dt ye me) = []
  /\ summary_metrics sort_values
       (filtered_df df zips (start_dt ys ms) (end_dt ye me))
     = Warning "No data available for selected filters."
  /\ category_distribution (filtered_df df zips (start_dt ys ms) (end_dt ye me))
     = Warning "No data available for selected filters."
  /\ latest_locations sort_values
       (filtered_df df zips (start_dt ys ms) (end_dt ye me))
     = Warning "No data available for selected filters.".
Proof.
  intros Hsel.
  assert (E : filtered_df df zips (start_dt ys ms) (end_dt ye me) = []).
  { apply no_row_is_empty. intros x Hx. apply filtered_df_in in Hx.
    destruct Hx as (_ & Hzip & Hlo & Hhi). destruct Hsel as [-> | Hinv].
    - discriminate Hzip.
    - rewrite (ts_leb_trans _ _ _ Hlo Hhi) in Hinv. discriminate. }
  rewrite E. repeat split.
Qed.

Lemma empty_selection_warns_witness :
  filtered_df two_zips ["A"] (start_dt 2024 March) (end_dt 2024 January) = []
  /\ summary_metrics sort_by_ts
       (filtered_df two_zips ["A"] (start_dt 2024 March) (end_dt 2024 January))
     = Warning "No data available for selected filters."
  /\ category_distribution
       (filtered_df two_zips ["A"] (start_dt 2024 March) (end_dt 2024 January))
     = Warning "No data available for selected filters."
  /\ latest_locations sort_by_ts
       (filtered_df two_zips ["A"] (start_dt 2024 March) (end_dt 2024 January))
     = Warning "No data available for selected filters.".
Proof.
  apply (empty_selection_warns sort_by_ts two_zips ["A"] 2024 March 2024 January).
  right. reflexivity.
Defined.
